(** * Bridge-and-deposit orchestration: the deposit hook and its modal

    A shallow embedding of [useAaveDeposit] (error classifier, token/chain
    resolver, parameter builder, simulate and execute controllers) and of the
    debounce logic of [ExecuteModal], followed by the properties proved
    about them.

    Conventions.
    - JavaScript strings are [string]s; every pattern the code searches for is
      ASCII, so substring search on bytes agrees with [String.prototype.includes].
    - A thrown value is a [Thrown]; a computation that may throw returns an
      [Outcome].
    - An [await] splits a function in two: the part before the engine call
      ([..._begin]) and the part that runs when the engine answers
      ([..._resume]), which receives the variables the closure captured.
    - React state setters are updates of an explicit store; the effect of
      [toast] is a log kept in that store.  The updates made by one handler,
      timer callback or promise continuation are applied together, and the
      effects of the render they cause run before the next event.
    - The modal is the first of the two variants of [ExecuteModal] in the
      sources (window of 1000 ms, MAX stores the wallet balance as given);
      the second differs in the window (400 ms), in MAX (0.9 times the
      balance) and in what closing resets.  Its props and the context values
      of its hook do not change while it is mounted.
    - Time is a counter of milliseconds; a timeout whose deadline has been
      reached runs at the end of the span that reached it. *)

From Stdlib Require Import String Ascii List ZArith Lia Bool Arith.
Import ListNotations.

Local Open Scope string_scope.
Local Open Scope list_scope.

(** ** JavaScript values *)

Module Js.

(** What [catch (error)] can receive: an [Error] object with its message,
    or any other thrown value (kept as its printed form). *)
Inductive Thrown : Type :=
| ErrorObj (message : string)
| OtherValue (repr : string).

(** The result of a call that either returns or throws. *)
Inductive Outcome (A : Type) : Type :=
| Return (a : A)
| Throw (e : Thrown).
Arguments Return {A} a.
Arguments Throw {A} e.

Definition bind {A B : Type} (m : Outcome A) (k : A -> Outcome B) : Outcome B :=
  match m with
  | Return a => k a
  | Throw e => Throw e
  end.

(** Truthiness of a string: only the empty string is falsy. *)
Definition truthy (s : string) : bool := negb (s =? "").

(** Truthiness of an optional string ([undefined] is falsy). *)
Definition truthy_opt (o : option string) : bool :=
  match o with
  | Some s => truthy s
  | None => false
  end.

(** [s.includes(pat)]: [pat] occurs in [s] at some position. *)
Fixpoint includes (s pat : string) : bool :=
  String.prefix pat s
  || match s with
     | EmptyString => false
     | String _ rest => includes rest pat
     end.

(** [toLowerCase] on the ASCII range (addresses are hex strings). *)
Definition lower_ascii (c : ascii) : ascii :=
  let n := nat_of_ascii c in
  if (65 <=? n)%nat && (n <=? 90)%nat then ascii_of_nat (n + 32) else c.

Fixpoint toLowerCase (s : string) : string :=
  match s with
  | EmptyString => EmptyString
  | String c rest => String (lower_ascii c) (toLowerCase rest)
  end.

End Js.
Import Js.

Notation "'let*' x ':=' m 'in' k" := (bind m (fun x => k))
  (at level 10, x name, m at level 100, k at level 200).

(** ** Error classifier ([parseError]) *)

Inductive ErrorType : Type :=
| REJECTED
| SDK_ERROR
| INSUFFICIENT
| GENERAL
| UNKNOWN.

Record ParsedError : Type := mkParsedError {
  type : ErrorType;
  message : string
}.

Definition parseError (error : Thrown) : ParsedError :=
  match error with
  | ErrorObj msg =>
      if includes msg "rejected" || includes msg "denied" then
        {| type := REJECTED; message := "Transaction rejected by user" |}
      else if includes msg "errUnknownField"
              || includes msg "tx parse error"
              || includes msg "Broadcasting transaction failed" then
        {| type := SDK_ERROR; message := "SDK error - check balances and try again" |}
      else if includes msg "insufficient" then
        {| type := INSUFFICIENT; message := "Insufficient balance" |}
      else
        {| type := GENERAL; message := msg |}
  | OtherValue _ =>
      {| type := UNKNOWN; message := "Unknown error occurred" |}
  end.

(** ** Token/chain resolver ([findTokenWithChain]) *)

Record Token : Type := mkToken {
  contractAddress : string;
  symbol : string;
  name : string;
  decimals : nat
}.

Record Chain : Type := mkChain {
  id : Z;
  tokens : list Token
}.

(** The predicate of [chain.tokens.find]. *)
Definition sameAddress (address : string) (t : Token) : bool :=
  toLowerCase (contractAddress t) =? toLowerCase address.

(** The [for (const chain of supportedChainsAndTokens)] loop. *)
Fixpoint searchChains (chains : list Chain) (address : string)
  : option (Chain * Token) :=
  match chains with
  | [] => None
  | chain :: rest =>
      match List.find (sameAddress address) (tokens chain) with
      | Some token => Some (chain, token)
      | None => searchChains rest address
      end
  end.

Definition findTokenWithChain (supportedChainsAndTokens : option (list Chain))
  (address : string) : Outcome (Chain * Token) :=
  match supportedChainsAndTokens with
  | None => Throw (ErrorObj "Supported chains and tokens not loaded")
  | Some chains =>
      match searchChains chains address with
      | Some found => Return found
      | None => Throw (ErrorObj ("Token not found for address: " ++ address))
      end
  end.

(** ** Base-unit conversion ([parseUnits]) *)

(** Decimal digits, and a conversion of decimal amounts to base units for
    the examples.  The conversion the hook calls is [parseUnits] of the viem
    package, whose source is not part of this repository: the hook takes it
    as a collaborator, and no property below says what it computes.  The
    digit tests are also used by the pattern of the amount field. *)
Module Units.

Definition isDigit (c : ascii) : bool :=
  let n := nat_of_ascii c in (48 <=? n)%nat && (n <=? 57)%nat.

Definition digitVal (c : ascii) : Z := Z.of_nat (nat_of_ascii c) - 48.

Fixpoint allDigits (s : string) : bool :=
  match s with
  | EmptyString => true
  | String c rest => isDigit c && allDigits rest
  end.

(** The integer a run of decimal digits denotes (the empty run denotes 0). *)
Fixpoint digitsFrom (acc : Z) (s : string) : Z :=
  match s with
  | EmptyString => acc
  | String c rest => digitsFrom (acc * 10 + digitVal c) rest
  end.

Definition digitsValue (s : string) : Z := digitsFrom 0 s.

(** [value.split('.')]: the text before the first dot and, when there is a
    dot, the text after it. *)
Fixpoint splitDot (s : string) : string * option string :=
  match s with
  | EmptyString => (EmptyString, None)
  | String c rest =>
      if (c =? ".")%char then (EmptyString, Some rest)
      else let (i, f) := splitDot rest in (String c i, f)
  end.

(** A decimal amount: digits, optionally a dot and more digits.  Gives the
    integer digits and the fraction digits. *)
Definition decimalParts (s : string) : option (string * string) :=
  let (i, f) := splitDot s in
  let f := match f with Some f => f | None => EmptyString end in
  if allDigits i && allDigits f then Some (i, f) else None.

Fixpoint zeros (n : nat) : string :=
  match n with
  | O => EmptyString
  | S n => String "0" (zeros n)
  end.

(** The first [n] characters of [s], with "0" for the missing ones. *)
Fixpoint fractionTo (n : nat) (s : string) : string :=
  match n with
  | O => EmptyString
  | S n' =>
      match s with
      | EmptyString => zeros n
      | String c rest => String c (fractionTo n' rest)
      end
  end.

(** The conversion the examples put in the place of viem's [parseUnits]:
    the digits of a decimal amount, with the fraction padded with zeros or
    cut to [decimals] digits.  A string that is not a decimal amount is
    refused.  The examples only convert amounts within the precision of
    their token. *)
Definition parseUnits (value : string) (decimals : nat) : Outcome Z :=
  match decimalParts value with
  | Some (i, f) => Return (digitsValue (i ++ fractionTo decimals f))
  | None => Throw (ErrorObj "Invalid decimal number")
  end.

End Units.

(** ** Data exchanged with the bridging engine *)

Module Engine.

Record TokenApproval : Type := mkTokenApproval {
  token : string;
  amount : Z;
  spender : string
}.

(** The value returned by [buildExecuteParams]. *)
Record ExecuteParams : Type := mkExecuteParams {
  to : string;
  data : string;
  value : Z;
  tokenApproval : TokenApproval
}.

Record BridgeAndExecuteParams : Type := mkParams {
  p_token : string;
  p_amount : Z;
  toChainId : Z;
  execute : ExecuteParams;
  waitForReceipt : option bool;
  receiptTimeout : option Z
}.

Record ExecuteSimulation : Type := mkExecuteSimulation {
  gasFee : Z
}.

Record BridgeSimulation : Type := mkBridgeSimulation {
  feesTotal : string;            (* intent.fees.total *)
  sources : list (string * string)  (* intent.sources: chain name, amount *)
}.

Record BridgeAndExecuteSimulationResult : Type := mkSimulationReply {
  executeSimulation : option ExecuteSimulation;
  bridgeSimulation : option BridgeSimulation
}.

(** The value [bridgeAndExecute] resolves to. *)
Record BridgeAndExecuteResult : Type := mkExecuteReply {
  executeTransactionHash : option string;
  executeExplorerUrl : option string
}.

Record NativeCurrency : Type := mkNative {
  nativeSymbol : string;
  nativeDecimals : nat
}.

End Engine.

(** ** The outcome of an execute attempt *)

Record AaveDepositResult : Type := mkResult {
  success : bool;
  error : option string;
  txHash : option string;
  explorerUrl : option string
}.

(** What [toast] was asked to show. *)
Inductive Toast : Type :=
| ToastError (text : string)
| ToastInfo (text : string)
| ToastSuccess (text : string) (viewTransaction : option string).

(** ** The deposit hook ([useAaveDeposit]) *)

(** *** Collaborators outside the repository

    Everything the hook calls but does not define, passed in explicitly. *)
Record Collaborators : Type := mkCollaborators {
  (** [CustomMarket] and [marketsData[market].addresses.LENDING_POOL]. *)
  Market : Type;
  LENDING_POOL : Market -> string;
  (** viem: [parseUnits] and [encodeFunctionData] for [supply(asset, amount,
      onBehalfOf, referralCode)] of [AAVE_POOL_ABI]; both may throw. *)
  parseUnits : string -> nat -> Outcome Z;
  encodeFunctionData : string -> Z -> string -> Z -> Outcome string;
  (** JavaScript numbers (floating point), as far as the hook uses them. *)
  Num : Type;
  num_zero : Num;
  num_add : Num -> Num -> Num;
  num_toString : Num -> string;
  parseFloat : string -> Num;
  (** [getFiatValue] of the Nexus provider, the SDK's formatting utilities and
      [CHAIN_METADATA[id].nativeCurrency]; each may throw. *)
  getFiatValue : Num -> string -> Outcome Num;
  formatTokenBalance : Z -> string -> nat -> Outcome string;
  formatUnits : Z -> nat -> Outcome string;
  CHAIN_METADATA : Z -> Outcome Engine.NativeCurrency
}.

Section Deposit.

Variable K : Collaborators.

(** *** What one render of the hook closes over *)

Record Render : Type := mkRender {
  depositAmount : string;
  assetAddress : string;
  market : Market K;
  nexusSDK : bool;                       (* is the SDK instance there? *)
  address : option string;               (* useAccount().address *)
  supportedChainsAndTokens : option (list Chain)
}.

(** [!nexusSDK || !address] *)
Definition notReady (r : Render) : bool :=
  negb (nexusSDK r) || negb (truthy_opt (address r)).

(** *** Parameter builder ([buildExecuteParams]) *)

Definition buildExecuteParams (r : Render) : Outcome Engine.ExecuteParams :=
  match address r with
  | None => Throw (ErrorObj "Wallet not connected")
  | Some wallet =>
      if negb (truthy wallet) then Throw (ErrorObj "Wallet not connected")
      else
        let* tokenDeets := findTokenWithChain (supportedChainsAndTokens r) (assetAddress r) in
        (* [!tokenDeets || !tokenDeets.token] never holds for a returned pair *)
        let* amountWei := parseUnits K (depositAmount r) (decimals (snd tokenDeets)) in
        let* encoded := encodeFunctionData K (assetAddress r) amountWei wallet 0%Z in
        Return {| Engine.to := LENDING_POOL K (market r);
                  Engine.data := encoded;
                  Engine.value := 0%Z;
                  Engine.tokenApproval :=
                    {| Engine.token := symbol (snd tokenDeets);
                       Engine.amount := amountWei;
                       Engine.spender := LENDING_POOL K (market r) |} |}
  end.

(** *** Hook state *)

Record SimulationResult : Type := mkSimulationResult {
  bridgeFee : Num K;
  executionGas : string;
  gasUsd : Num K;
  totalCost : string;
  destinationAmount : string;
  simulation_raw : Engine.BridgeAndExecuteSimulationResult   (* field [simulation] *)
}.

(** The [useState] cells of the hook, what was sent to [toast] and to
    [console.error], and whether a state change has asked React for a new
    render. *)
Record Store : Type := mkStore {
  isLoading : bool;
  currentStep : string;
  simulation : option SimulationResult;
  isSimulating : bool;
  multiStepResult : option Engine.BridgeAndExecuteSimulationResult;
  toasts : list Toast;
  consoleErrors : list (string * Thrown);
  renderScheduled : bool
}.

(** A setter stores the value; it asks React for a render when a primitive
    value changes, and always when it is given a fresh object. *)
Definition setIsLoading (b : bool) (st : Store) : Store :=
  mkStore b (currentStep st) (simulation st) (isSimulating st)
    (multiStepResult st) (toasts st) (consoleErrors st)
    (renderScheduled st || negb (Bool.eqb (isLoading st) b)).

Definition setCurrentStep (s : string) (st : Store) : Store :=
  mkStore (isLoading st) s (simulation st) (isSimulating st)
    (multiStepResult st) (toasts st) (consoleErrors st)
    (renderScheduled st || negb (currentStep st =? s)).

Definition setSimulation (r : SimulationResult) (st : Store) : Store :=
  mkStore (isLoading st) (currentStep st) (Some r) (isSimulating st)
    (multiStepResult st) (toasts st) (consoleErrors st) true.

Definition setIsSimulating (b : bool) (st : Store) : Store :=
  mkStore (isLoading st) (currentStep st) (simulation st) b
    (multiStepResult st) (toasts st) (consoleErrors st)
    (renderScheduled st || negb (Bool.eqb (isSimulating st) b)).

Definition setMultiStepResult (m : Engine.BridgeAndExecuteSimulationResult)
  (st : Store) : Store :=
  mkStore (isLoading st) (currentStep st) (simulation st) (isSimulating st)
    (Some m) (toasts st) (consoleErrors st) true.

Definition toast (t : Toast) (st : Store) : Store :=
  mkStore (isLoading st) (currentStep st) (simulation st) (isSimulating st)
    (multiStepResult st) (toasts st ++ [t]) (consoleErrors st) (renderScheduled st).

Definition consoleError (label : string) (e : Thrown) (st : Store) : Store :=
  mkStore (isLoading st) (currentStep st) (simulation st) (isSimulating st)
    (multiStepResult st) (toasts st) (consoleErrors st ++ [(label, e)])
    (renderScheduled st).

Definition initialStore : Store :=
  mkStore false "" None false None [] [] false.

(** *** Simulation controller ([simulateDeposit]) *)

(** The variables the rest of [simulateDeposit] uses after its [await]. *)
Record PendingSimulation : Type := mkPendingSimulation {
  s_depositAmount : string;
  s_tokenDeets : Chain * Token;
  s_params : Engine.BridgeAndExecuteParams
}.

(** The [catch] block followed by the [finally] block. *)
Definition simulateCatch (e : Thrown) (st : Store) : Store * bool :=
  let parsedError := parseError e in
  let st := toast (ToastError (message parsedError)) st in
  let st := setCurrentStep "" st in
  let st := consoleError "Simulation error:" e st in
  (setIsSimulating false st, false).

(** The statements of the [try] block that come before the engine call. *)
Definition prepareSimulation (r : Render) : Outcome PendingSimulation :=
  let* tokenDeets := findTokenWithChain (supportedChainsAndTokens r) (assetAddress r) in
  let* executeParams := buildExecuteParams r in
  let* amountWei := parseUnits K (depositAmount r) (decimals (snd tokenDeets)) in
  Return {| s_depositAmount := depositAmount r;
            s_tokenDeets := tokenDeets;
            s_params :=
              {| Engine.p_token := symbol (snd tokenDeets);
                 Engine.p_amount := amountWei;
                 Engine.toChainId := id (fst tokenDeets);
                 Engine.execute := executeParams;
                 Engine.waitForReceipt := None;
                 Engine.receiptTimeout := None |} |}.

(** Up to [await nexusSDK.simulateBridgeAndExecute(params)]: either the
    promise is already settled with a boolean, or the engine was called. *)
Definition simulateDeposit_begin (r : Render) (st : Store)
  : Store * (bool + PendingSimulation) :=
  if notReady r then
    (toast (ToastError "Nexus SDK not initialized or wallet not connected") st, inl false)
  else
    let st := setIsSimulating true st in
    let st := setCurrentStep "Simulating transaction..." st in
    match prepareSimulation r with
    | Return pending => (st, inr pending)
    | Throw e => let (st, b) := simulateCatch e st in (st, inl b)
    end.

(** The cost summary computed from a simulation that has an execute leg. *)
Definition summarize (p : PendingSimulation)
  (reply : Engine.BridgeAndExecuteSimulationResult)
  (native : Engine.NativeCurrency) (es : Engine.ExecuteSimulation)
  : Outcome SimulationResult :=
  let gasFee := Engine.gasFee es in
  let* gasFormatted :=
    formatTokenBalance K gasFee (Engine.nativeSymbol native) (Engine.nativeDecimals native) in
  let* units := formatUnits K gasFee (Engine.nativeDecimals native) in
  let gasUnits := parseFloat K units in
  let* gasUsd := getFiatValue K gasUnits (Engine.nativeSymbol native) in
  let* bridgeUsd :=
    match Engine.bridgeSimulation reply with
    | Some b => getFiatValue K (parseFloat K (Engine.feesTotal b)) (name (snd (s_tokenDeets p)))
    | None => Return (num_zero K)
    end in
  Return {| bridgeFee := bridgeUsd;
            executionGas := gasFormatted;
            gasUsd := gasUsd;
            totalCost := num_toString K (num_add K bridgeUsd gasUsd);
            destinationAmount := s_depositAmount p;
            simulation_raw := reply |}.

(** From the engine's answer to the end of [simulateDeposit]. *)
Definition simulateDeposit_resume (p : PendingSimulation)
  (answer : Outcome Engine.BridgeAndExecuteSimulationResult) (st : Store)
  : Store * bool :=
  match answer with
  | Throw e => simulateCatch e st
  | Return reply =>
      let st := setMultiStepResult reply st in
      match CHAIN_METADATA K (id (fst (s_tokenDeets p))) with
      | Throw e => simulateCatch e st
      | Return native =>
          match Engine.executeSimulation reply with
          | None =>
              let st := toast (ToastError "Simulation failed - check console for details") st in
              let st := setCurrentStep "" st in
              (setIsSimulating false st, false)
          | Some es =>
              let st :=
                match Engine.bridgeSimulation reply with
                | None =>
                    toast (ToastInfo "No bridging needed - funds already on destination chain") st
                | Some _ => st
                end in
              match summarize p reply native es with
              | Throw e => simulateCatch e st
              | Return summary =>
                  let st := setSimulation summary st in
                  let st := setCurrentStep "" st in
                  (setIsSimulating false st, true)
              end
          end
      end
  end.

(** *** Execution controller ([executeDeposit]) *)

Record PendingExecution : Type := mkPendingExecution {
  x_depositAmount : string;
  x_tokenDeets : Chain * Token;
  x_params : Engine.BridgeAndExecuteParams
}.

(** The [catch] block followed by the [finally] block. *)
Definition executeCatch (e : Thrown) (st : Store) : Store * AaveDepositResult :=
  let parsedError := parseError e in
  let st := setCurrentStep "" st in
  let st := toast (ToastError (message parsedError)) st in
  let st := consoleError "Execution error:" e st in
  (setIsLoading false st,
   {| success := false; error := Some (message parsedError);
      txHash := None; explorerUrl := None |}).

(** The statements of the [try] block that come before the engine call. *)
Definition prepareExecution (r : Render) : Outcome PendingExecution :=
  let* executeParams := buildExecuteParams r in
  let* tokenDeets := findTokenWithChain (supportedChainsAndTokens r) (assetAddress r) in
  let* amountWei := parseUnits K (depositAmount r) (decimals (snd tokenDeets)) in
  Return {| x_depositAmount := depositAmount r;
            x_tokenDeets := tokenDeets;
            x_params :=
              {| Engine.p_token := symbol (snd tokenDeets);
                 Engine.p_amount := amountWei;
                 Engine.toChainId := id (fst tokenDeets);
                 Engine.execute := executeParams;
                 Engine.waitForReceipt := Some true;
                 Engine.receiptTimeout := Some 300000%Z |} |}.

(** Up to [await nexusSDK.bridgeAndExecute(params)]. *)
Definition executeDeposit_begin (r : Render) (st : Store)
  : Store * (AaveDepositResult + PendingExecution) :=
  if notReady r then
    (st, inl {| success := false; error := Some "SDK not initialized";
                txHash := None; explorerUrl := None |})
  else
    let st := setIsLoading true st in
    let st := setCurrentStep "Preparing transaction..." st in
    match prepareExecution r with
    | Return pending => (setCurrentStep "Initiating bridge..." st, inr pending)
    | Throw e => let (st, res) := executeCatch e st in (st, inl res)
    end.

(** From the engine's answer to the end of [executeDeposit]. *)
Definition executeDeposit_resume (p : PendingExecution)
  (answer : Outcome Engine.BridgeAndExecuteResult) (st : Store)
  : Store * AaveDepositResult :=
  match answer with
  | Throw e => executeCatch e st
  | Return result =>
      let st := setCurrentStep "" st in
      if truthy_opt (Engine.executeTransactionHash result) then
        let st :=
          toast (ToastSuccess
                   ("Successfully deposited " ++ x_depositAmount p ++ " "
                    ++ name (snd (x_tokenDeets p)) ++ " to AAVE!")
                   (if truthy_opt (Engine.executeExplorerUrl result)
                    then Engine.executeExplorerUrl result else None)) st in
        (setIsLoading false st,
         {| success := true; error := None;
            txHash := Engine.executeTransactionHash result;
            explorerUrl := Engine.executeExplorerUrl result |})
      else
        let st := toast (ToastError "Transaction failed to complete") st in
        (setIsLoading false st,
         {| success := false; error := Some "No transaction hash returned";
            txHash := None; explorerUrl := None |})
  end.

(** [executeDeposit] run against an engine that answers [engine params]. *)
Definition executeDeposit (r : Render)
  (engine : Engine.BridgeAndExecuteParams -> Outcome Engine.BridgeAndExecuteResult)
  (st : Store) : Store * AaveDepositResult :=
  match executeDeposit_begin r st with
  | (st, inl res) => (st, res)
  | (st, inr pending) => executeDeposit_resume pending (engine (x_params pending)) st
  end.

(** ** The modal ([ExecuteModal]) *)

(** The window of the debounce timer, in milliseconds. *)
Definition DEBOUNCE_MS : nat := 1000.

(** [/^\d*\.?\d*$/.test(value)]: digits, at most one dot, digits. *)
Fixpoint skipDigits (s : string) : string :=
  match s with
  | EmptyString => EmptyString
  | String c rest => if Units.isDigit c then skipDigits rest else s
  end.

Definition amountPattern (s : string) : bool :=
  match skipDigits s with
  | EmptyString => true
  | String c rest => (c =? ".")%char && (skipDigits rest =? "")
  end.

(** The props of the modal and the context values its hook reads; they stay
    the same while the modal is mounted. *)
Record Props : Type := mkProps {
  underlyingAsset : string;
  currentMarket : Market K;
  walletBalance : string;
  sdkReady : bool;
  walletAddress : option string;
  catalog : option (list Chain)
}.

(** [useAaveDeposit(amount, underlyingAsset, currentMarket)] as rendered
    with the amount [a]. *)
Definition renderOf (props : Props) (a : string) : Render :=
  {| depositAmount := a;
     assetAddress := underlyingAsset props;
     market := currentMarket props;
     nexusSDK := sdkReady props;
     address := walletAddress props;
     supportedChainsAndTokens := catalog props |}.

(** A timeout handle: the amount and the open flag its callback closed
    over, when it is due, and whether it is still pending. *)
Record Timer : Type := mkTimer {
  armedAmount : string;
  armedIsOpen : bool;
  deadline : nat;
  live : bool
}.

(** The state cells and refs of the modal, the state of its hook, and the
    world around it: the clock, the simulations the engine has not answered
    yet, and the calls made to [simulateDeposit] (when, for which amount).
    The code clears the handle in [timerRef] before it replaces or drops
    it, so no pending timer exists outside [timerRef].  The two dropdown
    flags only affect rendering and are left out. *)
Record State : Type := mkState {
  isOpen : bool;
  amount : string;
  isDebouncing : bool;
  amountRef : string;
  timerRef : option Timer;
  prevSimulationRef : option string;
  isFirstRenderRef : bool;
  renderedAmount : string;      (* [amount] as the last effects saw it *)
  renderedIsOpen : bool;        (* [isOpen] as the last effects saw it *)
  hook : Store;
  inflight : list PendingSimulation;
  clock : nat;
  simulateLog : list (nat * string)
}.

Definition withHook (f : Store -> Store) (st : State) : State :=
  mkState (isOpen st) (amount st) (isDebouncing st) (amountRef st) (timerRef st)
    (prevSimulationRef st) (isFirstRenderRef st) (renderedAmount st)
    (renderedIsOpen st) (f (hook st)) (inflight st) (clock st) (simulateLog st).

(** Ask React for a render when [changed] holds. *)
Definition askRender (changed : bool) (h : Store) : Store :=
  mkStore (isLoading h) (currentStep h) (simulation h) (isSimulating h)
    (multiStepResult h) (toasts h) (consoleErrors h) (renderScheduled h || changed).

Definition renderDone (h : Store) : Store :=
  mkStore (isLoading h) (currentStep h) (simulation h) (isSimulating h)
    (multiStepResult h) (toasts h) (consoleErrors h) false.

Definition setIsOpen (b : bool) (st : State) : State :=
  mkState b (amount st) (isDebouncing st) (amountRef st) (timerRef st)
    (prevSimulationRef st) (isFirstRenderRef st) (renderedAmount st)
    (renderedIsOpen st) (askRender (negb (Bool.eqb (isOpen st) b)) (hook st))
    (inflight st) (clock st) (simulateLog st).

Definition setAmount (v : string) (st : State) : State :=
  mkState (isOpen st) v (isDebouncing st) (amountRef st) (timerRef st)
    (prevSimulationRef st) (isFirstRenderRef st) (renderedAmount st)
    (renderedIsOpen st) (askRender (negb (amount st =? v)) (hook st))
    (inflight st) (clock st) (simulateLog st).

Definition setIsDebouncing (b : bool) (st : State) : State :=
  mkState (isOpen st) (amount st) b (amountRef st) (timerRef st)
    (prevSimulationRef st) (isFirstRenderRef st) (renderedAmount st)
    (renderedIsOpen st) (askRender (negb (Bool.eqb (isDebouncing st) b)) (hook st))
    (inflight st) (clock st) (simulateLog st).

Definition setAmountRef (v : string) (st : State) : State :=
  mkState (isOpen st) (amount st) (isDebouncing st) v (timerRef st)
    (prevSimulationRef st) (isFirstRenderRef st) (renderedAmount st)
    (renderedIsOpen st) (hook st) (inflight st) (clock st) (simulateLog st).

Definition setTimerRef (t : option Timer) (st : State) : State :=
  mkState (isOpen st) (amount st) (isDebouncing st) (amountRef st) t
    (prevSimulationRef st) (isFirstRenderRef st) (renderedAmount st)
    (renderedIsOpen st) (hook st) (inflight st) (clock st) (simulateLog st).

Definition setPrevSimulationRef (v : option string) (st : State) : State :=
  mkState (isOpen st) (amount st) (isDebouncing st) (amountRef st) (timerRef st)
    v (isFirstRenderRef st) (renderedAmount st)
    (renderedIsOpen st) (hook st) (inflight st) (clock st) (simulateLog st).

Definition setIsFirstRenderRef (b : bool) (st : State) : State :=
  mkState (isOpen st) (amount st) (isDebouncing st) (amountRef st) (timerRef st)
    (prevSimulationRef st) b (renderedAmount st)
    (renderedIsOpen st) (hook st) (inflight st) (clock st) (simulateLog st).

Definition setRendered (a : string) (o : bool) (st : State) : State :=
  mkState (isOpen st) (amount st) (isDebouncing st) (amountRef st) (timerRef st)
    (prevSimulationRef st) (isFirstRenderRef st) a o (hook st) (inflight st)
    (clock st) (simulateLog st).

Definition setInflight (l : list PendingSimulation) (st : State) : State :=
  mkState (isOpen st) (amount st) (isDebouncing st) (amountRef st) (timerRef st)
    (prevSimulationRef st) (isFirstRenderRef st) (renderedAmount st)
    (renderedIsOpen st) (hook st) l (clock st) (simulateLog st).

Definition setClock (t : nat) (st : State) : State :=
  mkState (isOpen st) (amount st) (isDebouncing st) (amountRef st) (timerRef st)
    (prevSimulationRef st) (isFirstRenderRef st) (renderedAmount st)
    (renderedIsOpen st) (hook st) (inflight st) t (simulateLog st).

Definition logSimulate (a : string) (st : State) : State :=
  mkState (isOpen st) (amount st) (isDebouncing st) (amountRef st) (timerRef st)
    (prevSimulationRef st) (isFirstRenderRef st) (renderedAmount st)
    (renderedIsOpen st) (hook st) (inflight st) (clock st)
    (simulateLog st ++ [(clock st, a)]).

(** [clearTimeout(handle)]: the handle is no longer pending. *)
Definition cancelled (t : Timer) : Timer :=
  mkTimer (armedAmount t) (armedIsOpen t) (deadline t) false.

(** [if (timerRef.current) clearTimeout(timerRef.current)] *)
Definition clearTimer (st : State) : State :=
  setTimerRef (option_map cancelled (timerRef st)) st.

(** [prevSimulationRef.current !== amount] *)
Definition differsFrom (prev : option string) (a : string) : bool :=
  match prev with
  | Some p => negb (p =? a)
  | None => true
  end.

(** [debouncedSimulation], as created by the render that saw the amount
    [a] and the open flag [o]. *)
Definition debouncedSimulation (a : string) (o : bool) (st : State) : State :=
  if truthy a && negb (a =? "0") && differsFrom (prevSimulationRef st) a then
    let st := setIsDebouncing true st in
    let st := clearTimer st in
    setTimerRef (Some (mkTimer a o (clock st + DEBOUNCE_MS) true)) st
  else st.

(** The callback given to [setTimeout], when it runs. *)
Definition timerCallback (props : Props) (a : string) (o : bool) (st : State) : State :=
  if o && (amountRef st =? a) then
    (* [simulateDeposit()] of the render that armed the timer; its promise is dropped *)
    let st := logSimulate a st in
    let started := simulateDeposit_begin (renderOf props a) (hook st) in
    let st := withHook (fun _ => fst started) st in
    let st :=
      match snd started with
      | inr pending => setInflight (inflight st ++ [pending]) st
      | inl _ => st
      end in
    let st := setPrevSimulationRef (Some a) st in
    setIsDebouncing false st
  else st.

(** [useEffect(() => { amountRef.current = amount }, [amount])] *)
Definition amountRefEffect (a : string) (st : State) : State :=
  if renderedAmount st =? a then st else setAmountRef a st.

(** The effect that runs the debounce: nothing on the first render, then
    [debouncedSimulation()].  It depends on [debouncedSimulation], which is
    a new function in every render (it depends on [simulateDeposit], which
    the hook creates anew each time), so it runs after every render.  Its
    cleanup is [clearTimer]. *)
Definition debounceEffect (a : string) (o : bool) (st : State) : State :=
  if isFirstRenderRef st then setIsFirstRenderRef false st
  else debouncedSimulation a o st.

(** [useEffect(() => { if (!isOpen) { ... } }, [isOpen])] *)
Definition openCloseEffect (o : bool) (st : State) : State :=
  if Bool.eqb (renderedIsOpen st) o then st
  else if negb o then
    let st := clearTimer st in
    let st := setTimerRef None st in
    let st := setPrevSimulationRef None st in
    setIsDebouncing false st
  else st.

(** What React runs after a render that saw the amount [a] and the open flag
    [o]: the cleanup of the debounce effect, then the three effects in the
    order they are declared. *)
Definition runEffects (st : State) : State :=
  let a := amount st in
  let o := isOpen st in
  setRendered a o
    (openCloseEffect o
       (debounceEffect a o
          (amountRefEffect a
             (clearTimer (withHook renderDone st))))).

(** Render and run effects until no state change is pending (three rounds
    always suffice, see [settle_no_render_pending]). *)
Fixpoint settleWithin (n : nat) (st : State) : State :=
  match n with
  | O => st
  | S n' =>
      if renderScheduled (hook st) then settleWithin n' (runEffects st) else st
  end.

Definition settle (st : State) : State := settleWithin 3 st.

Definition handleChange (value : string) (st : State) : State :=
  if (value =? "") || amountPattern value then setAmount value st else st.

Definition handleSetMax (props : Props) (st : State) : State :=
  setAmount (walletBalance props) st.

Definition handleOpen (st : State) : State :=
  setAmount "" (setIsOpen true st).

Definition handleClose (st : State) : State :=
  let st := setIsOpen false st in
  let st := setAmount "" st in
  match timerRef st with
  | Some _ => setTimerRef None (clearTimer st)
  | None => st
  end.

Fixpoint removeNth {A : Type} (i : nat) (l : list A) : list A :=
  match l, i with
  | [], _ => []
  | _ :: rest, O => rest
  | x :: rest, S i' => x :: removeNth i' rest
  end.

(** What can happen to a mounted modal.  The confirm button is not among the
    events: [executeDeposit] is studied on its own. *)
Inductive Event : Type :=
| Open                       (* the Supply button *)
| Close                      (* the close button, or a click outside *)
| Change (value : string)    (* typing in the amount field *)
| SetMax                     (* the MAX button *)
| Rerender                   (* a render for a reason not modelled here *)
| Elapse (dt : nat)          (* [dt] milliseconds pass *)
| Deliver (i : nat) (answer : Outcome Engine.BridgeAndExecuteSimulationResult).
                             (* the engine answers the [i]-th simulation in flight *)

Definition step (props : Props) (e : Event) (st : State) : State :=
  match e with
  | Open => settle (handleOpen st)
  | Close => settle (handleClose st)
  | Change v => settle (handleChange v st)
  | SetMax => settle (handleSetMax props st)
  | Rerender => settle (withHook (askRender true) st)
  | Elapse dt =>
      let st := setClock (clock st + dt) st in
      match timerRef st with
      | Some t =>
          if live t && (deadline t <=? clock st)%nat then
            settle (timerCallback props (armedAmount t) (armedIsOpen t) (clearTimer st))
          else st
      | None => st
      end
  | Deliver i answer =>
      match nth_error (inflight st) i with
      | Some pending =>
          let st := setInflight (removeNth i (inflight st)) st in
          settle (withHook (fun h => fst (simulateDeposit_resume pending answer h)) st)
      | None => st
      end
  end.

Definition run (props : Props) (events : list Event) (st : State) : State :=
  fold_left (fun s e => step props e s) events st.

(** The modal once mounted: closed, nothing entered, the first effects done. *)
Definition mounted : State :=
  mkState false "" false "" None None false "" false initialStore [] 0 [].

End Deposit.

Arguments mkRender {K}.
Arguments depositAmount {K} r.
Arguments assetAddress {K} r.
Arguments market {K} r.
Arguments nexusSDK {K} r.
Arguments address {K} r.
Arguments supportedChainsAndTokens {K} r.
Arguments notReady {K} r.
Arguments buildExecuteParams {K} r.
Arguments prepareSimulation {K} r.
Arguments simulateDeposit_begin {K} r st.
Arguments simulateDeposit_resume {K} p answer st.
Arguments prepareExecution {K} r.
Arguments executeDeposit_begin {K} r st.
Arguments executeDeposit_resume {K} p answer st.
Arguments executeDeposit {K} r engine st.
Arguments mkSimulationResult {K}.
Arguments bridgeFee {K} s.
Arguments executionGas {K} s.
Arguments gasUsd {K} s.
Arguments totalCost {K} s.
Arguments destinationAmount {K} s.
Arguments simulation_raw {K} s.
Arguments mkStore {K}.
Arguments isLoading {K} s.
Arguments currentStep {K} s.
Arguments simulation {K} s.
Arguments isSimulating {K} s.
Arguments multiStepResult {K} s.
Arguments toasts {K} s.
Arguments consoleErrors {K} s.
Arguments renderScheduled {K} s.
Arguments setIsLoading {K} b st.
Arguments setCurrentStep {K} s st.
Arguments setSimulation {K} r st.
Arguments setIsSimulating {K} b st.
Arguments setMultiStepResult {K} m st.
Arguments toast {K} t st.
Arguments consoleError {K} label e st.
Arguments simulateCatch {K} e st.
Arguments executeCatch {K} e st.
Arguments mkProps {K}.
Arguments underlyingAsset {K} p.
Arguments currentMarket {K} p.
Arguments walletBalance {K} p.
Arguments sdkReady {K} p.
Arguments walletAddress {K} p.
Arguments catalog {K} p.
Arguments mkState {K}.
Arguments isOpen {K} s.
Arguments amount {K} s.
Arguments isDebouncing {K} s.
Arguments amountRef {K} s.
Arguments timerRef {K} s.
Arguments prevSimulationRef {K} s.
Arguments isFirstRenderRef {K} s.
Arguments renderedAmount {K} s.
Arguments renderedIsOpen {K} s.
Arguments hook {K} s.
Arguments inflight {K} s.
Arguments clock {K} s.
Arguments simulateLog {K} s.
Arguments withHook {K} f st.
Arguments askRender {K} changed h.
Arguments renderDone {K} h.
Arguments setIsOpen {K} b st.
Arguments setAmount {K} v st.
Arguments setIsDebouncing {K} b st.
Arguments setAmountRef {K} v st.
Arguments setTimerRef {K} t st.
Arguments setPrevSimulationRef {K} v st.
Arguments setIsFirstRenderRef {K} b st.
Arguments setRendered {K} a o st.
Arguments setInflight {K} l st.
Arguments setClock {K} t st.
Arguments logSimulate {K} a st.
Arguments clearTimer {K} st.
Arguments debouncedSimulation {K} a o st.
Arguments timerCallback {K} props a o st.
Arguments amountRefEffect {K} a st.
Arguments debounceEffect {K} a o st.
Arguments openCloseEffect {K} o st.
Arguments runEffects {K} st.
Arguments settleWithin {K} n st.
Arguments settle {K} st.
Arguments handleChange {K} value st.
Arguments handleSetMax {K} props st.
Arguments handleOpen {K} st.
Arguments handleClose {K} st.
Arguments step {K} props e st.
Arguments run {K} props events st.
Arguments renderOf {K} props a.

(** ** The modal, continued: confirming a deposit, and the later close handler *)

Section DepositConfirm.

Variable K : Collaborators.

(** [handleClose] of the second variant of the modal: it also resets the
    debounce flag and the marker itself, and clears the timer without
    dropping the handle.  ([successData], a state cell only that variant
    has, and the dropdown flags are left out.) *)
Definition handleCloseLater (st : State K) : State K :=
  let st := setIsOpen false st in
  let st := setAmount "" st in
  let st := setIsDebouncing false st in
  let st := clearTimer st in
  setPrevSimulationRef None st.

(** [if (result.success) handleClose()], the rest of [handleConfirmDeposit]
    (first variant) once [executeDeposit] has given its result. *)
Definition afterExecute (result : AaveDepositResult) (st : State K) : State K :=
  if success result then handleClose st else st.

(** The confirm button is pressed: [executeDeposit()] of the current render
    runs up to the engine call, or ends at once. *)
Definition confirmClicked (props : Props K) (st : State K)
  : State K * (AaveDepositResult + PendingExecution) :=
  let started := executeDeposit_begin (renderOf props (amount st)) (hook st) in
  let st := withHook (fun _ => fst started) st in
  match snd started with
  | inl result => (settle (afterExecute result st), inl result)
  | inr pending => (settle st, inr pending)
  end.

(** The engine answers the execute call: [executeDeposit] ends, and
    [handleConfirmDeposit] goes on with its result. *)
Definition confirmAnswered (pending : PendingExecution)
  (answer : Outcome Engine.BridgeAndExecuteResult) (st : State K)
  : State K * AaveDepositResult :=
  let ended := executeDeposit_resume pending answer (hook st) in
  let st := withHook (fun _ => fst ended) st in
  (settle (afterExecute (snd ended) st), snd ended).

End DepositConfirm.

Arguments handleCloseLater {K} st.
Arguments afterExecute {K} result st.
Arguments confirmClicked {K} props st.
Arguments confirmAnswered {K} pending answer st.

(** ** A concrete setting for examples

    One chain with a 6-decimal token, a connected wallet, and collaborators
    that always answer.  Numbers are integers here. *)

Definition demoToken : Token :=
  {| contractAddress := "0xA0b8"; symbol := "USDC"; name := "USD Coin"; decimals := 6 |}.

Definition demoChain : Chain := {| id := 10; tokens := [demoToken] |}.

Definition demoK : Collaborators :=
  {| Market := unit;
     LENDING_POOL := fun _ => "0xPool";
     parseUnits := Units.parseUnits;
     encodeFunctionData := fun _ _ _ _ => Return "0xdata";
     Num := Z;
     num_zero := 0%Z;
     num_add := Z.add;
     num_toString := fun _ => "n";
     parseFloat := fun _ => 1%Z;
     getFiatValue := fun n _ => Return n;
     formatTokenBalance := fun _ _ _ => Return "0.0001 ETH";
     formatUnits := fun _ _ => Return "0.0001";
     CHAIN_METADATA := fun _ => Return {| Engine.nativeSymbol := "ETH"; Engine.nativeDecimals := 18 |} |}.

Definition demoProps : Props demoK :=
  {| underlyingAsset := "0xa0B8";
     currentMarket := (tt : Market demoK);
     walletBalance := "1e-7";
     sdkReady := true;
     walletAddress := Some "0xWallet";
     catalog := Some [demoChain] |}.

Definition demoReply : Engine.BridgeAndExecuteSimulationResult :=
  {| Engine.executeSimulation := Some {| Engine.gasFee := 21000 |};
     Engine.bridgeSimulation := None |}.

(** The hook as rendered for the amount "1.23", and what its simulation
    waits with while the engine works. *)
Definition demoRender : Render demoK := renderOf demoProps "1.23".

Definition demoPending : PendingSimulation :=
  {| s_depositAmount := "1.23";
     s_tokenDeets := (demoChain, demoToken);
     s_params :=
       {| Engine.p_token := "USDC";
          Engine.p_amount := 1230000;
          Engine.toChainId := 10;
          Engine.execute :=
            {| Engine.to := "0xPool"; Engine.data := "0xdata"; Engine.value := 0;
               Engine.tokenApproval :=
                 {| Engine.token := "USDC"; Engine.amount := 1230000;
                    Engine.spender := "0xPool" |} |};
          Engine.waitForReceipt := None;
          Engine.receiptTimeout := None |} |}.

(** An engine answer without an execute leg, and execute answers with and
    without a transaction hash. *)
Definition noExecuteReply : Engine.BridgeAndExecuteSimulationResult :=
  {| Engine.executeSimulation := None; Engine.bridgeSimulation := None |}.

Definition hashReply : Engine.BridgeAndExecuteResult :=
  {| Engine.executeTransactionHash := Some "0xabc123";
     Engine.executeExplorerUrl := Some "https://explorer.example/tx/0xabc123" |}.

Definition noHashReply : Engine.BridgeAndExecuteResult :=
  {| Engine.executeTransactionHash := None; Engine.executeExplorerUrl := None |}.

(** The summary the demo collaborators compute for [demoReply]. *)
Definition demoSummary : SimulationResult demoK :=
  @mkSimulationResult demoK 0%Z "0.0001 ETH" 1%Z "n" "1.23" demoReply.

(** The modal just opened. *)
Definition demoOpened : State demoK := step demoProps Open (mounted demoK).

(** "1.23" is entered and its simulation launched; before the engine
    answers, the amount is changed to "5". *)
Definition demoStale : State demoK :=
  run demoProps [Open; Change "1.23"; Elapse 1000; Change "5"] (mounted demoK).

(** "5" is simulated with success, "6" is simulated and fails, and the
    amount is changed back to "5". *)
Definition demoRelaunch : State demoK :=
  run demoProps
    [Open; Change "5"; Elapse 1000; Deliver 0 (Return demoReply);
     Change "6"; Elapse 1000; Deliver 0 (Throw (ErrorObj "boom")); Change "5"]
    (mounted demoK).

(** "1.23" has just been entered in the open modal: its debounce timer is
    pending. *)
Definition demoEntered : State demoK :=
  run demoProps [Open; Change "1.23"] (mounted demoK).

(** What [executeDeposit] of [demoRender] waits with while the engine works. *)
Definition demoExecution : PendingExecution :=
  {| x_depositAmount := "1.23";
     x_tokenDeets := (demoChain, demoToken);
     x_params :=
       {| Engine.p_token := "USDC";
          Engine.p_amount := 1230000;
          Engine.toChainId := 10;
          Engine.execute :=
            {| Engine.to := "0xPool"; Engine.data := "0xdata"; Engine.value := 0;
               Engine.tokenApproval :=
                 {| Engine.token := "USDC"; Engine.amount := 1230000;
                    Engine.spender := "0xPool" |} |};
          Engine.waitForReceipt := Some true;
          Engine.receiptTimeout := Some 300000%Z |} |}.

(** ** Vocabulary of the statements *)

(** [pat] occurs somewhere in [s]. *)
Definition Occurs (pat s : string) : Prop :=
  exists before after, s = (before ++ pat ++ after)%string.

(** The token's address equals [address] up to letter case. *)
Definition Matches (address : string) (t : Token) : Prop :=
  toLowerCase (contractAddress t) = toLowerCase address.

(** [(c, t)] is the first pair of the catalog, in its order, that matches. *)
Definition FirstMatch (chains : list Chain) (address : string) (c : Chain) (t : Token)
  : Prop :=
  exists before after tbefore tafter,
    chains = before ++ c :: after
    /\ tokens c = tbefore ++ t :: tafter
    /\ Matches address t
    /\ (forall c' t', In c' before -> In t' (tokens c') -> ~ Matches address t')
    /\ (forall t', In t' tbefore -> ~ Matches address t').

(** The chains of the catalog whose token list holds the address. *)
Definition chainsContaining (chains : list Chain) (address : string) : list Chain :=
  filter (fun c => existsb (sameAddress address) (tokens c)) chains.

Definition twoChainCatalog : list Chain :=
  [ {| id := 1; tokens := [ {| contractAddress := "0xEeeE"; symbol := "ETH";
                               name := "Ether"; decimals := 18 |} ] |};
    {| id := 10; tokens := [ {| contractAddress := "0xeeee"; symbol := "ETH";
                                name := "Ether (Optimism)"; decimals := 18 |} ] |} ].

(** No render is pending and the refs agree with the rendered state: the
    modal as it is between two events. *)
Definition Quiet {K : Collaborators} (st : State K) : Prop :=
  renderScheduled (hook st) = false
  /\ isFirstRenderRef st = false
  /\ amountRef st = amount st
  /\ renderedAmount st = amount st
  /\ renderedIsOpen st = isOpen st.

(** What a handler, the timer callback or a delivery leaves behind when it
    starts from a quiet state: the refs still agree with the last render
    wherever the state did not move. *)
Definition Settling {K : Collaborators} (st : State K) : Prop :=
  isFirstRenderRef st = false
  /\ (renderedAmount st = amount st -> amountRef st = amount st)
  /\ (renderScheduled (hook st) = false ->
      renderedAmount st = amount st /\ renderedIsOpen st = isOpen st).

(** No timeout is pending. *)
Definition NoLiveTimer {K : Collaborators} (st : State K) : Prop :=
  match timerRef st with
  | Some t => live t = false
  | None => True
  end.

(** The condition under which [debouncedSimulation] starts a cycle. *)
Definition startsCycle (prev : option string) (a : string) : bool :=
  truthy a && negb (a =? "0") && differsFrom prev a.

(** A burst of edits: each amount entered, and the time that passes after it. *)
Definition burstEvents (changes : list (string * nat)) : list Event :=
  flat_map (fun c => [Change (fst c); Elapse (snd c)]) changes.

Definition burstTime (changes : list (string * nat)) : nat :=
  fold_right (fun c t => snd c + t) 0 changes.

(** Every amount of the list differs from the one before it ([prev] for the
    first). *)
Fixpoint eachDiffers (prev : string) (vs : list string) : Prop :=
  match vs with
  | [] => True
  | v :: rest => v <> prev /\ eachDiffers v rest
  end.

(** Every amount held by the modal, by its timer, by a simulation in flight
    or logged as simulated has the shape the amount field accepts. *)
Definition AmountsAccepted {K : Collaborators} (st : State K) : Prop :=
  amountPattern (amount st) = true
  /\ (forall t, timerRef st = Some t -> amountPattern (armedAmount t) = true)
  /\ Forall (fun p => amountPattern (s_depositAmount p) = true) (inflight st)
  /\ Forall (fun c => amountPattern (snd c) = true) (simulateLog st).

(** A pending timeout was armed by the render now on screen: it closes over
    the amount and the open flag the modal has. *)
Definition TimerFresh {K : Collaborators} (st : State K) : Prop :=
  forall t, timerRef st = Some t -> live t = true ->
            armedAmount t = amount st /\ armedIsOpen t = isOpen st.

(** No timeout was ever armed, and no simulation launched, for the empty
    amount or for "0". *)
Definition NeverForNothing {K : Collaborators} (st : State K) : Prop :=
  (forall t, timerRef st = Some t -> armedAmount t <> "" /\ armedAmount t <> "0")
  /\ Forall (fun c => snd c <> "" /\ snd c <> "0") (simulateLog st).

(** A closed modal with nothing left over from the flow. *)
Definition ClosedClean {K : Collaborators} (st : State K) : Prop :=
  isOpen st = false /\ amount st = "" /\ timerRef st = None
  /\ prevSimulationRef st = None /\ isDebouncing st = false.

(** Two engine requests that differ at most in how they wait for a receipt. *)
Definition sameRequest (p q : Engine.BridgeAndExecuteParams) : Prop :=
  Engine.p_token p = Engine.p_token q
  /\ Engine.p_amount p = Engine.p_amount q
  /\ Engine.toChainId p = Engine.toChainId q
  /\ Engine.execute p = Engine.execute q.

(** * Properties *)

(** ** Strings *)

Lemma prefix_iff (p s : string) :
  String.prefix p s = true <-> exists rest, s = (p ++ rest)%string.
Proof.
  revert s; induction p as [|a p IH]; intros s.
  - split; [intros _; now exists s | now destruct s].
  - destruct s as [|b s]; simpl.
    + split; [discriminate | intros [rest H]; discriminate].
    + destruct (ascii_dec a b) as [->|Hab].
      * rewrite IH. split; intros [rest H]; exists rest.
        -- now rewrite H.
        -- now inversion H.
      * split; [discriminate | intros [rest H]; simpl in H; congruence].
Qed.

Lemma includes_iff (s pat : string) :
  includes s pat = true <-> Occurs pat s.
Proof.
  unfold Occurs. induction s as [|c s IH]; cbn [includes].
  - rewrite orb_false_r, prefix_iff. split.
    + intros [rest H]. now exists "", rest.
    + intros [before [after H]]. destruct before; simpl in H.
      * now exists after.
      * discriminate.
  - rewrite orb_true_iff, prefix_iff, IH. split.
    + intros [[rest H] | [before [after H]]].
      * now exists "", rest.
      * exists (String c before), after. simpl. now rewrite H.
    + intros [before [after H]]. destruct before as [|b before]; simpl in H.
      * left. now exists after.
      * right. inversion H. now exists before, after.
Qed.

Lemma includes_false_iff (s pat : string) :
  includes s pat = false <-> ~ Occurs pat s.
Proof.
  rewrite <- includes_iff. destruct (includes s pat); split; congruence.
Qed.

Lemma string_app_assoc (a b c : string) :
  ((a ++ b) ++ c)%string = (a ++ (b ++ c))%string.
Proof. induction a as [|x a IH]; cbn; congruence. Qed.

Lemma occurs_longer (pat before after s : string) :
  Occurs (before ++ pat ++ after) s -> Occurs pat s.
Proof.
  intros (pre & suf & ->). exists (pre ++ before)%string, (after ++ suf)%string.
  now rewrite !string_app_assoc.
Qed.

(** ** Error classifier *)

Example classify_user_rejected :
  type (parseError (ErrorObj "MetaMask Tx Signature: user rejected the request")) = REJECTED.
Proof. reflexivity. Qed.

Example classify_insufficient :
  type (parseError (ErrorObj "insufficient funds for gas")) = INSUFFICIENT.
Proof. reflexivity. Qed.

Example classify_tx_parse_error :
  type (parseError (ErrorObj "rpc: tx parse error")) = SDK_ERROR.
Proof. reflexivity. Qed.

Example classify_rejection_wins :
  type (parseError (ErrorObj "insufficient allowance: request denied")) = REJECTED.
Proof. reflexivity. Qed.

Example classify_thrown_string :
  type (parseError (OtherValue "user rejected")) = UNKNOWN.
Proof. reflexivity. Qed.

(** C4.  [parseError] matches in priority order.  An [Error] whose message
    contains "rejected" or "denied" is [REJECTED]; otherwise one that contains
    "errUnknownField", "tx parse error" or "Broadcasting transaction failed"
    is [SDK_ERROR]; otherwise one that contains "insufficient" is
    [INSUFFICIENT]; any other [Error] is [GENERAL] and keeps its message
    unchanged; a thrown value that is not an [Error] is [UNKNOWN].  In
    particular a message that contains "user rejected" is [REJECTED]. *)
Theorem parseError_priority :
  (forall repr,
      parseError (OtherValue repr)
      = {| type := UNKNOWN; message := "Unknown error occurred" |})
  /\
  (forall msg,
      let rejected := Occurs "rejected" msg \/ Occurs "denied" msg in
      let engine :=
        Occurs "errUnknownField" msg \/ Occurs "tx parse error" msg
        \/ Occurs "Broadcasting transaction failed" msg in
      let insufficient := Occurs "insufficient" msg in
      (rejected ->
       parseError (ErrorObj msg)
       = {| type := REJECTED; message := "Transaction rejected by user" |})
      /\ (~ rejected -> engine ->
          parseError (ErrorObj msg)
          = {| type := SDK_ERROR; message := "SDK error - check balances and try again" |})
      /\ (~ rejected -> ~ engine -> insufficient ->
          parseError (ErrorObj msg)
          = {| type := INSUFFICIENT; message := "Insufficient balance" |})
      /\ (~ rejected -> ~ engine -> ~ insufficient ->
          parseError (ErrorObj msg) = {| type := GENERAL; message := msg |}))
  /\
  (forall msg,
      Occurs "user rejected" msg -> type (parseError (ErrorObj msg)) = REJECTED).
Proof.
  split; [reflexivity|]. split; cycle 1.
  { intros msg H. apply (occurs_longer "rejected" "user " "") in H.
    apply includes_iff in H. unfold parseError. now rewrite H. }
  intros msg rejected engine insufficient.
  subst rejected engine insufficient. unfold parseError.
  destruct (includes msg "rejected") eqn:R1;
    destruct (includes msg "denied") eqn:R2;
    destruct (includes msg "errUnknownField") eqn:E1;
    destruct (includes msg "tx parse error") eqn:E2;
    destruct (includes msg "Broadcasting transaction failed") eqn:E3;
    destruct (includes msg "insufficient") eqn:I1;
    cbn [orb];
    repeat match goal with
           | H : includes _ _ = true |- _ => apply includes_iff in H
           | H : includes _ _ = false |- _ => apply includes_false_iff in H
           end;
    repeat split; intros; try reflexivity; exfalso; tauto.
Qed.

(** ** Token/chain resolver *)

Lemma sameAddress_iff (address : string) (t : Token) :
  sameAddress address t = true <-> Matches address t.
Proof. unfold sameAddress, Matches. apply String.eqb_eq. Qed.

Lemma sameAddress_false_iff (address : string) (t : Token) :
  sameAddress address t = false <-> ~ Matches address t.
Proof.
  rewrite <- sameAddress_iff. destruct (sameAddress address t); split; congruence.
Qed.

Lemma find_splits {A : Type} (p : A -> bool) (l : list A) (x : A) :
  List.find p l = Some x ->
  exists l1 l2, l = l1 ++ x :: l2 /\ p x = true /\ forall y, In y l1 -> p y = false.
Proof.
  induction l as [|a l IH]; simpl; [discriminate|].
  destruct (p a) eqn:Hpa.
  - intros [= ->]. exists [], l. repeat split; [assumption | intros y []].
  - intros H. destruct (IH H) as (l1 & l2 & -> & Hx & Hl1).
    exists (a :: l1), l2. repeat split; [assumption|].
    intros y [<- | Hy]; [assumption | now apply Hl1].
Qed.

Lemma searchChains_none (chains : list Chain) (address : string) :
  searchChains chains address = None <->
  forall c t, In c chains -> In t (tokens c) -> ~ Matches address t.
Proof.
  induction chains as [|c0 chains IH]; simpl.
  - split; [intros _ c t [] | reflexivity].
  - destruct (List.find (sameAddress address) (tokens c0)) as [t0|] eqn:Hfind.
    + split; [discriminate|]. intros H. exfalso.
      apply find_some in Hfind as [Hin Hsame].
      apply (H c0 t0); [now left | assumption | now apply sameAddress_iff].
    + rewrite IH. split.
      * intros H c t [<- | Hc] Ht.
        -- apply sameAddress_false_iff. now apply (find_none _ _ Hfind).
        -- now apply (H c t).
      * intros H c t Hc. apply (H c t). now right.
Qed.

Lemma searchChains_first (chains : list Chain) (address : string) (c : Chain) (t : Token) :
  searchChains chains address = Some (c, t) -> FirstMatch chains address c t.
Proof.
  induction chains as [|c0 chains IH]; simpl; [discriminate|].
  destruct (List.find (sameAddress address) (tokens c0)) as [t0|] eqn:Hfind.
  - intros [= -> ->].
    destruct (find_splits _ _ _ Hfind) as (tb & ta & Htok & Hsame & Hbefore).
    exists [], chains, tb, ta. repeat split.
    + assumption.
    + now apply sameAddress_iff.
    + intros c' t' [].
    + intros t' Ht'. apply sameAddress_false_iff. now apply Hbefore.
  - intros H. destruct (IH H) as (before & after & tb & ta & -> & Htok & Hm & Hb & Htb).
    exists (c0 :: before), after, tb, ta. repeat split; try assumption.
    intros c' t' [<- | Hc'] Ht'.
    + apply sameAddress_false_iff. now apply (find_none _ _ Hfind).
    + now apply (Hb c' t').
Qed.

(** C3 (as the code has it).  When some chain of the catalog lists a token
    whose address equals the requested one up to letter case, resolution
    returns the first such chain in catalog order together with the first
    matching token of that chain; when only one pair of the catalog matches,
    that pair is the result.  The search stops at the first match: it does
    not look for a second one. *)
Theorem findTokenWithChain_first_match
  (chains : list Chain) (address : string) (c : Chain) (t : Token)
  (Hc : In c chains) (Ht : In t (tokens c)) (Hm : Matches address t) :
  exists c0 t0,
    findTokenWithChain (Some chains) address = Return (c0, t0)
    /\ FirstMatch chains address c0 t0
    /\ ((forall c' t', In c' chains -> In t' (tokens c') -> Matches address t' ->
         (c', t') = (c, t))
        -> (c0, t0) = (c, t)).
Proof.
  unfold findTokenWithChain.
  destruct (searchChains chains address) as [[c0 t0]|] eqn:Hs.
  - exists c0, t0. pose proof (searchChains_first _ _ _ _ Hs) as HF.
    repeat split; [assumption|].
    intros Huniq.
    destruct HF as (before & after & tb & ta & Hch & Htok & Hm0 & _ & _).
    apply (Huniq c0 t0); [| | assumption].
    + rewrite Hch. apply in_or_app. right. now left.
    + rewrite Htok. apply in_or_app. right. now left.
  - exfalso. rewrite searchChains_none in Hs. exact (Hs c t Hc Ht Hm).
Qed.

Lemma findTokenWithChain_first_match_witness :
  exists c0 t0,
    findTokenWithChain (Some [demoChain]) "0XA0B8" = Return (c0, t0)
    /\ FirstMatch [demoChain] "0XA0B8" c0 t0
    /\ ((forall c' t', In c' [demoChain] -> In t' (tokens c') -> Matches "0XA0B8" t' ->
         (c', t') = (demoChain, demoToken))
        -> (c0, t0) = (demoChain, demoToken)).
Proof.
  apply (findTokenWithChain_first_match [demoChain] "0XA0B8" demoChain demoToken).
  - simpl. left. reflexivity.
  - simpl. left. reflexivity.
  - reflexivity.
Defined.

(** C3, the claim as stated fails: an address that two chains list is
    resolved to the first of them; no error is raised. *)
Lemma findTokenWithChain_ambiguous_returns_first :
  length (chainsContaining twoChainCatalog "0xEEEE") = 2%nat
  /\ exists found,
       findTokenWithChain (Some twoChainCatalog) "0xEEEE" = Return found
       /\ id (fst found) = 1%Z.
Proof.
  split; [reflexivity|]. eexists. split; reflexivity.
Qed.

(** C9.  The resolver and the builder fail at once, each with a reason of
    its own: the resolver throws "Supported chains and tokens not loaded"
    when the catalog is missing and "Token not found for address: ..." when
    no chain lists the address; the builder throws "Wallet not connected"
    when there is no wallet address, before it looks at anything else.  The
    three reasons differ from one another. *)
Theorem resolver_and_builder_fail_fast :
  forall (K : Collaborators) (addr : string),
    findTokenWithChain None addr
    = Throw (ErrorObj "Supported chains and tokens not loaded")
    /\ (forall chains,
           (forall c t, In c chains -> In t (tokens c) -> ~ Matches addr t) ->
           findTokenWithChain (Some chains) addr
           = Throw (ErrorObj ("Token not found for address: " ++ addr)))
    /\ (forall r : Render K,
           truthy_opt (address r) = false ->
           buildExecuteParams r = Throw (ErrorObj "Wallet not connected"))
    /\ "Supported chains and tokens not loaded"
       <> ("Token not found for address: " ++ addr)%string
    /\ "Wallet not connected" <> ("Token not found for address: " ++ addr)%string
    /\ "Wallet not connected" <> "Supported chains and tokens not loaded".
Proof.
  intros K addr. repeat split.
  - intros chains H. unfold findTokenWithChain.
    apply searchChains_none in H. now rewrite H.
  - intros r H. unfold buildExecuteParams.
    destruct (address r) as [w|]; [|reflexivity].
    simpl in H. now rewrite H.
  - discriminate.
  - discriminate.
  - discriminate.
Qed.

(** ** Execution and simulation controllers *)

Section HookProperties.

Variable K : Collaborators.

Lemma demo_simulation_prepared : prepareSimulation demoRender = Return demoPending.
Proof. reflexivity. Qed.

Lemma executeDeposit_unfold (r : Render K)
  (engine : Engine.BridgeAndExecuteParams -> Outcome Engine.BridgeAndExecuteResult)
  (st : Store K) :
  notReady r = false ->
  executeDeposit r engine st
  = let st1 := setCurrentStep "Preparing transaction..." (setIsLoading true st) in
    match prepareExecution r with
    | Return p =>
        executeDeposit_resume p (engine (x_params p))
          (setCurrentStep "Initiating bridge..." st1)
    | Throw e => executeCatch e st1
    end.
Proof.
  intros Hready. unfold executeDeposit, executeDeposit_begin. rewrite Hready.
  cbv zeta. destruct (prepareExecution r) as [p|e]; [reflexivity|].
  destruct (executeCatch e _); reflexivity.
Qed.

Lemma executeDeposit_begin_pending (r : Render K) (st st1 : Store K)
  (p : PendingExecution) :
  executeDeposit_begin r st = (st1, inr p) ->
  notReady r = false /\ prepareExecution r = Return p.
Proof.
  unfold executeDeposit_begin. destruct (notReady r); [discriminate|].
  cbv zeta. destruct (prepareExecution r) as [q|e].
  - intros [= _ ->]. now split.
  - destruct (executeCatch e _). discriminate.
Qed.

(** C5.  When the engine's bridge-and-execute call returns without
    throwing, the outcome is decided by the transaction hash of its answer:
    with no hash (absent or empty) [executeDeposit] returns [success:false];
    with a hash it returns [success:true] together with that hash and the
    explorer address of the answer. *)
Theorem executeDeposit_requires_hash (r : Render K)
  (engine : Engine.BridgeAndExecuteParams -> Outcome Engine.BridgeAndExecuteResult)
  (st st1 : Store K) (p : PendingExecution) (result : Engine.BridgeAndExecuteResult)
  (Hbegin : executeDeposit_begin r st = (st1, inr p))
  (Hengine : engine (x_params p) = Return result) :
  (truthy_opt (Engine.executeTransactionHash result) = false ->
   snd (executeDeposit r engine st)
   = {| success := false; error := Some "No transaction hash returned";
        txHash := None; explorerUrl := None |})
  /\ (forall h, Engine.executeTransactionHash result = Some h -> h <> "" ->
      snd (executeDeposit r engine st)
      = {| success := true; error := None; txHash := Some h;
           explorerUrl := Engine.executeExplorerUrl result |}).
Proof.
  destruct (executeDeposit_begin_pending _ _ _ _ Hbegin) as [Hready Hprep].
  rewrite (executeDeposit_unfold _ _ _ Hready), Hprep. cbv zeta.
  rewrite Hengine. unfold executeDeposit_resume. split.
  - intros ->. reflexivity.
  - intros h Hh Hne. rewrite Hh. simpl truthy_opt. unfold truthy.
    apply String.eqb_neq in Hne. rewrite Hne. reflexivity.
Qed.

(** C6 (as the code has it).  When something throws during an execute
    attempt, before the engine call or in it, [executeDeposit] returns
    [success:false] with [error] set to the message the classifier gives
    for the thrown value, and neither hash nor explorer address.  The
    outcome has no field for the kind the classifier found. *)
Theorem executeDeposit_thrown_failure (r : Render K)
  (engine : Engine.BridgeAndExecuteParams -> Outcome Engine.BridgeAndExecuteResult)
  (st : Store K) (e : Thrown)
  (Hready : notReady r = false)
  (Hthrown : prepareExecution r = Throw e
             \/ exists p, prepareExecution r = Return p
                          /\ engine (x_params p) = Throw e) :
  snd (executeDeposit r engine st)
  = {| success := false; error := Some (message (parseError e));
       txHash := None; explorerUrl := None |}.
Proof.
  rewrite (executeDeposit_unfold _ _ _ Hready). cbv zeta.
  destruct Hthrown as [Hprep | (p & Hprep & Hengine)]; rewrite Hprep.
  - reflexivity.
  - rewrite Hengine. reflexivity.
Qed.

Lemma simulateCatch_effect (e : Thrown) (st : Store K) :
  snd (simulateCatch e st) = false
  /\ simulation (fst (simulateCatch e st)) = simulation st
  /\ multiStepResult (fst (simulateCatch e st)) = multiStepResult st
  /\ toasts (fst (simulateCatch e st))
     = toasts st ++ [ToastError (message (parseError e))].
Proof.
  unfold simulateCatch, setIsSimulating, consoleError, setCurrentStep, toast.
  cbn [fst snd].
  repeat match goal with
         | |- context [if ?b then _ else _] => destruct b
         end; cbn; auto.
Qed.

(** C8 (as the code has it).  A simulation attempt that fails leaves the
    stored summary as it was.  When the engine call (or a statement before
    it) throws, the thrown value is classified, the classifier's message is
    shown, and the stored engine result is left as it was too.  When the
    engine answers without an execute leg, nothing is classified: the fixed
    text "Simulation failed - check console for details" is shown, and the
    answer has already been stored as the multi-step result. *)
Theorem simulateDeposit_failure_effects (p : PendingSimulation)
  (answer : Outcome Engine.BridgeAndExecuteSimulationResult) (st : Store K) :
  (snd (simulateDeposit_resume p answer st) = false ->
   simulation (fst (simulateDeposit_resume p answer st)) = simulation st)
  /\ (forall e, answer = Throw e ->
      snd (simulateDeposit_resume p answer st) = false
      /\ multiStepResult (fst (simulateDeposit_resume p answer st)) = multiStepResult st
      /\ toasts (fst (simulateDeposit_resume p answer st))
         = toasts st ++ [ToastError (message (parseError e))])
  /\ (forall reply native,
      answer = Return reply ->
      CHAIN_METADATA K (id (fst (s_tokenDeets p))) = Return native ->
      Engine.executeSimulation reply = None ->
      snd (simulateDeposit_resume p answer st) = false
      /\ multiStepResult (fst (simulateDeposit_resume p answer st)) = Some reply
      /\ toasts (fst (simulateDeposit_resume p answer st))
         = toasts st ++ [ToastError "Simulation failed - check console for details"])
  /\ (forall (r : Render K) e,
      notReady r = false -> prepareSimulation r = Throw e ->
      snd (simulateDeposit_begin r st) = inl false
      /\ simulation (fst (simulateDeposit_begin r st)) = simulation st
      /\ multiStepResult (fst (simulateDeposit_begin r st)) = multiStepResult st
      /\ toasts (fst (simulateDeposit_begin r st))
         = toasts st ++ [ToastError (message (parseError e))]).
Proof.
  repeat apply conj.
  - unfold simulateDeposit_resume. destruct answer as [reply|e].
    + destruct (CHAIN_METADATA K _) as [native|e].
      * destruct (Engine.executeSimulation reply) as [es|].
        -- destruct (summarize K p reply native es) as [summary|e].
           ++ cbn [snd]. discriminate.
           ++ intros _. rewrite (proj1 (proj2 (simulateCatch_effect e _))).
              destruct (Engine.bridgeSimulation reply); reflexivity.
        -- intros _. cbn [fst]. unfold setIsSimulating, setCurrentStep.
           repeat match goal with
                  | |- context [if ?b then _ else _] => destruct b
                  end; reflexivity.
      * intros _. now rewrite (proj1 (proj2 (simulateCatch_effect e _))).
    + intros _. apply simulateCatch_effect.
  - intros e ->. cbn [simulateDeposit_resume].
    destruct (simulateCatch_effect e st) as (H1 & _ & H3 & H4). auto.
  - intros reply native -> Hmeta Hnone. cbn [simulateDeposit_resume].
    rewrite Hmeta, Hnone. cbn [fst snd].
    unfold setIsSimulating, setCurrentStep.
    repeat match goal with
           | |- context [if ?b then _ else _] => destruct b
           end; cbn; auto.
  - intros r e Hready Hprep. unfold simulateDeposit_begin.
    rewrite Hready, Hprep. cbv zeta.
    destruct (simulateCatch_effect e
                (setCurrentStep "Simulating transaction..." (setIsSimulating true st)))
      as (H1 & H2 & H3 & H4).
    destruct (simulateCatch e _) as [st' b]. cbn [fst snd] in *. subst b.
    rewrite H2, H3, H4.
    unfold setIsSimulating, setCurrentStep.
    repeat match goal with
           | |- context [if ?b then _ else _] => destruct b
           end; cbn; auto.
Qed.

End HookProperties.

Lemma executeDeposit_requires_hash_witness :
  snd (executeDeposit demoRender (fun _ => Return noHashReply) (initialStore demoK))
  = {| success := false; error := Some "No transaction hash returned";
       txHash := None; explorerUrl := None |}
  /\ snd (executeDeposit demoRender (fun _ => Return hashReply) (initialStore demoK))
     = {| success := true; error := None; txHash := Some "0xabc123";
          explorerUrl := Some "https://explorer.example/tx/0xabc123" |}.
Proof.
  split.
  - refine (proj1 (executeDeposit_requires_hash demoK demoRender
                     (fun _ => Return noHashReply) (initialStore demoK) _ _
                     noHashReply _ _) _); reflexivity.
  - refine (proj2 (executeDeposit_requires_hash demoK demoRender
                     (fun _ => Return hashReply) (initialStore demoK) _ _
                     hashReply _ _) "0xabc123" _ _);
      [reflexivity | reflexivity | reflexivity | discriminate].
Defined.

Lemma executeDeposit_thrown_failure_witness :
  snd (executeDeposit demoRender
         (fun _ => Throw (ErrorObj "User denied transaction signature"))
         (initialStore demoK))
  = {| success := false; error := Some "Transaction rejected by user";
       txHash := None; explorerUrl := None |}.
Proof.
  refine (executeDeposit_thrown_failure demoK demoRender _ (initialStore demoK)
            (ErrorObj "User denied transaction signature") _ _).
  - reflexivity.
  - right. eexists. split; reflexivity.
Defined.

(** C6, the claim as stated fails: the outcome does not carry the kind.  An
    engine failure classified [SDK_ERROR] and one classified [GENERAL] give
    the same outcome. *)
Lemma executeDeposit_outcome_hides_kind :
  snd (executeDeposit demoRender (fun _ => Throw (ErrorObj "tx parse error"))
         (initialStore demoK))
  = snd (executeDeposit demoRender
           (fun _ => Throw (ErrorObj "SDK error - check balances and try again"))
           (initialStore demoK))
  /\ type (parseError (ErrorObj "tx parse error")) = SDK_ERROR
  /\ type (parseError (ErrorObj "SDK error - check balances and try again")) = GENERAL.
Proof. repeat split. Qed.

(** C8, the claim as stated fails: an engine answer without an execute leg
    is a failed attempt, yet it is stored as the multi-step result, and the
    text shown is a fixed one, not the classifier's. *)
Lemma simulateDeposit_failed_attempt_stores_answer :
  snd (simulateDeposit_resume demoPending (Return noExecuteReply) (initialStore demoK))
  = false
  /\ multiStepResult (initialStore demoK) = None
  /\ multiStepResult
       (fst (simulateDeposit_resume demoPending (Return noExecuteReply) (initialStore demoK)))
     = Some noExecuteReply
  /\ toasts
       (fst (simulateDeposit_resume demoPending (Return noExecuteReply) (initialStore demoK)))
     = [ToastError "Simulation failed - check console for details"].
Proof. repeat split. Qed.

(** ** The modal: effects, debounce and deliveries *)

Section ModalProperties.

Variable K : Collaborators.
Variable props : Props K.

Local Opaque DEBOUNCE_MS String.eqb.

Ltac state_fields :=
  cbn [isOpen amount isDebouncing amountRef timerRef prevSimulationRef isFirstRenderRef
       renderedAmount renderedIsOpen hook inflight clock simulateLog
       isLoading currentStep simulation isSimulating multiStepResult toasts
       consoleErrors renderScheduled
       armedAmount armedIsOpen deadline live fst snd].

Lemma askRender_false (h : Store K) : askRender false h = h.
Proof. destruct h. unfold askRender. state_fields. now rewrite orb_false_r. Qed.

Lemma debouncedSimulation_nf (a : string) (o : bool) (st : State K) :
  debouncedSimulation a o st
  = let cyc := startsCycle (prevSimulationRef st) a in
    mkState (isOpen st) (amount st)
      (if cyc then true else isDebouncing st)
      (amountRef st)
      (if cyc then Some (mkTimer a o (clock st + DEBOUNCE_MS) true) else timerRef st)
      (prevSimulationRef st) (isFirstRenderRef st) (renderedAmount st)
      (renderedIsOpen st)
      (askRender (cyc && negb (isDebouncing st)) (hook st))
      (inflight st) (clock st) (simulateLog st).
Proof.
  unfold debouncedSimulation, startsCycle. cbv zeta.
  destruct (truthy a && negb (a =? "0") && differsFrom (prevSimulationRef st) a).
  - unfold clearTimer; unfold setTimerRef, setIsDebouncing. state_fields.
    destruct (isDebouncing st); reflexivity.
  - cbn [andb]. rewrite askRender_false. now destruct st.
Qed.

Lemma amountRefEffect_nf (a : string) (st : State K) :
  amountRefEffect a st
  = setAmountRef (if renderedAmount st =? a then amountRef st else a) st.
Proof.
  unfold amountRefEffect. destruct (renderedAmount st =? a); [now destruct st | reflexivity].
Qed.

Lemma debounceEffect_nf (a : string) (o : bool) (st : State K) :
  debounceEffect a o st
  = let cyc := negb (isFirstRenderRef st) && startsCycle (prevSimulationRef st) a in
    mkState (isOpen st) (amount st)
      (if cyc then true else isDebouncing st)
      (amountRef st)
      (if cyc then Some (mkTimer a o (clock st + DEBOUNCE_MS) true) else timerRef st)
      (prevSimulationRef st) false (renderedAmount st)
      (renderedIsOpen st)
      (askRender (cyc && negb (isDebouncing st)) (hook st))
      (inflight st) (clock st) (simulateLog st).
Proof.
  unfold debounceEffect. destruct (isFirstRenderRef st) eqn:Hf.
  - cbn [negb andb]. cbv zeta. rewrite askRender_false. reflexivity.
  - rewrite debouncedSimulation_nf. cbn [negb andb]. cbv zeta. now rewrite Hf.
Qed.

Lemma openCloseEffect_nf (o : bool) (st : State K) :
  openCloseEffect o st
  = let closing := negb (Bool.eqb (renderedIsOpen st) o) && negb o in
    mkState (isOpen st) (amount st)
      (if closing then false else isDebouncing st)
      (amountRef st)
      (if closing then None else timerRef st)
      (if closing then None else prevSimulationRef st)
      (isFirstRenderRef st) (renderedAmount st) (renderedIsOpen st)
      (askRender (closing && isDebouncing st) (hook st))
      (inflight st) (clock st) (simulateLog st).
Proof.
  unfold openCloseEffect.
  destruct (Bool.eqb (renderedIsOpen st) o); cbn [negb andb]; cbv zeta.
  - rewrite askRender_false. now destruct st.
  - destruct o; cbn [negb].
    + rewrite askRender_false. now destruct st.
    + unfold clearTimer; unfold setIsDebouncing, setPrevSimulationRef, setTimerRef.
      state_fields. destruct (isDebouncing st); reflexivity.
Qed.

Lemma runEffects_nf (st : State K) :
  runEffects st
  = let a := amount st in
    let o := isOpen st in
    let cyc := negb (isFirstRenderRef st) && startsCycle (prevSimulationRef st) a in
    let closing := negb (Bool.eqb (renderedIsOpen st) o) && negb o in
    mkState o a
      (if closing then false else if cyc then true else isDebouncing st)
      (if renderedAmount st =? a then amountRef st else a)
      (if closing then None
       else if cyc then Some (mkTimer a o (clock st + DEBOUNCE_MS) true)
            else option_map cancelled (timerRef st))
      (if closing then None else prevSimulationRef st)
      false a o
      (askRender (closing && (cyc || isDebouncing st))
         (askRender (cyc && negb (isDebouncing st)) (renderDone (hook st))))
      (inflight st) (clock st) (simulateLog st).
Proof.
  unfold runEffects. cbv zeta.
  rewrite amountRefEffect_nf.
  unfold clearTimer; unfold withHook, setTimerRef, setAmountRef. state_fields.
  rewrite debounceEffect_nf. cbv zeta. state_fields.
  rewrite openCloseEffect_nf. cbv zeta. state_fields.
  unfold setRendered. state_fields.
  destruct (negb (isFirstRenderRef st) && startsCycle (prevSimulationRef st) (amount st));
    reflexivity.
Qed.


Lemma settleWithin_frame (n : nat) (st : State K) :
  amount (settleWithin n st) = amount st
  /\ isOpen (settleWithin n st) = isOpen st
  /\ inflight (settleWithin n st) = inflight st
  /\ clock (settleWithin n st) = clock st
  /\ simulateLog (settleWithin n st) = simulateLog st
  /\ simulation (hook (settleWithin n st)) = simulation (hook st)
  /\ multiStepResult (hook (settleWithin n st)) = multiStepResult (hook st)
  /\ toasts (hook (settleWithin n st)) = toasts (hook st).
Proof.
  revert st. induction n as [|n IH]; intros st; cbn [settleWithin].
  - repeat split.
  - destruct (renderScheduled (hook st)); [|repeat split].
    destruct (IH (runEffects st)) as (H1 & H2 & H3 & H4 & H5 & H6 & H7 & H8).
    rewrite H1, H2, H3, H4, H5, H6, H7, H8, runEffects_nf. cbv zeta. state_fields.
    unfold askRender, renderDone. state_fields. repeat split.
Qed.

Lemma settle_unscheduled (st : State K) :
  renderScheduled (hook st) = false -> settle st = st.
Proof. intros H. unfold settle. cbn [settleWithin]. now rewrite H. Qed.

(** After an update that left [isOpen] as the last effects saw it, React
    settles in at most two renders, and this is the state it settles in. *)
Lemma settle_after_update (st : State K) :
  isFirstRenderRef st = false ->
  renderedIsOpen st = isOpen st ->
  renderScheduled (hook st) = true ->
  settle st
  = let cyc := startsCycle (prevSimulationRef st) (amount st) in
    mkState (isOpen st) (amount st)
      (if cyc then true else isDebouncing st)
      (if renderedAmount st =? amount st then amountRef st else amount st)
      (if cyc then Some (mkTimer (amount st) (isOpen st) (clock st + DEBOUNCE_MS) true)
       else option_map cancelled (timerRef st))
      (prevSimulationRef st) false (amount st) (isOpen st)
      (renderDone (hook st)) (inflight st) (clock st) (simulateLog st).
Proof.
  intros Hfirst Hopen Hsched. unfold settle. cbn [settleWithin]. rewrite Hsched.
  rewrite runEffects_nf. cbv zeta. rewrite Hfirst, Hopen, eqb_reflx. cbn [negb andb].
  state_fields. unfold askRender, renderDone. state_fields. cbn [orb].
  destruct (startsCycle (prevSimulationRef st) (amount st)) eqn:Hc; cbn [andb orb].
  - destruct (isDebouncing st); cbn [negb].
    + reflexivity.
    + rewrite runEffects_nf. cbv zeta. state_fields. rewrite Hc, eqb_reflx.
      cbn [negb andb orb]. rewrite String.eqb_refl. reflexivity.
  - reflexivity.
Qed.


Lemma startsCycle_true (prev : option string) (v : string) :
  v <> "" -> v <> "0" -> prev <> Some v -> startsCycle prev v = true.
Proof.
  intros H1 H2 H3. unfold startsCycle, truthy, differsFrom.
  apply String.eqb_neq in H1, H2. rewrite H1, H2. cbn [negb andb].
  destruct prev as [p|]; [|reflexivity].
  destruct (p =? v) eqn:E; [|reflexivity].
  apply String.eqb_eq in E. congruence.
Qed.

Lemma startsCycle_same (v : string) : startsCycle (Some v) v = false.
Proof.
  unfold startsCycle, differsFrom. rewrite String.eqb_refl. cbn [negb].
  now rewrite andb_false_r.
Qed.

(** An accepted edit of an open, quiet modal: the amount is stored, the
    pending timer (if any) is cancelled, and a new one is armed exactly when
    the new amount starts a cycle. *)
Lemma step_change_quiet (st : State K) (v : string) :
  Quiet st -> amountPattern v = true -> v <> amount st ->
  step props (Change v) st
  = let cyc := startsCycle (prevSimulationRef st) v in
    mkState (isOpen st) v
      (if cyc then true else isDebouncing st) v
      (if cyc then Some (mkTimer v (isOpen st) (clock st + DEBOUNCE_MS) true)
       else option_map cancelled (timerRef st))
      (prevSimulationRef st) false v (isOpen st)
      (renderDone (hook st)) (inflight st) (clock st) (simulateLog st).
Proof.
  intros (Hs & Hf & Hr & Hra & Hro) Hv Hne.
  cbn [step]. unfold handleChange. rewrite Hv, orb_true_r.
  assert (Hneq : (amount st =? v) = false) by (apply String.eqb_neq; congruence).
  rewrite settle_after_update.
  - cbv zeta. unfold setAmount. state_fields. rewrite Hra, Hneq.
    unfold askRender, renderDone. state_fields. reflexivity.
  - exact Hf.
  - exact Hro.
  - unfold setAmount, askRender. state_fields. rewrite Hneq. now rewrite orb_true_r.
Qed.

Lemma change_then_wait (st : State K) (v : string) (d : nat) :
  Quiet st -> amountPattern v = true -> v <> amount st -> d < DEBOUNCE_MS ->
  let st' := step props (Elapse d) (step props (Change v) st) in
  Quiet st' /\ isOpen st' = isOpen st /\ amount st' = v
  /\ clock st' = clock st + d
  /\ simulateLog st' = simulateLog st
  /\ prevSimulationRef st' = prevSimulationRef st.
Proof.
  intros Hq Hv Hne Hd. rewrite (step_change_quiet st v Hq Hv Hne). cbv zeta.
  cbn [step]. unfold setClock. state_fields.
  assert (Hnofire :
            forall t, (if startsCycle (prevSimulationRef st) v
                       then Some (mkTimer v (isOpen st) (clock st + DEBOUNCE_MS) true)
                       else option_map cancelled (timerRef st)) = Some t ->
                      live t && (deadline t <=? clock st + d)%nat = false).
  { intros t. destruct (startsCycle _ _).
    - intros [= <-]. state_fields. apply Nat.leb_gt. lia.
    - destruct (timerRef st) as [t0|]; [|discriminate].
      intros [= <-]. reflexivity. }
  destruct (if startsCycle (prevSimulationRef st) v then _ else _) as [t|] eqn:Ht.
  - rewrite (Hnofire t eq_refl). unfold Quiet. state_fields. repeat split.
  - unfold Quiet. state_fields. repeat split.
Qed.

Lemma change_then_fire (st : State K) (v : string) (d : nat) :
  Quiet st -> isOpen st = true -> amountPattern v = true -> v <> amount st ->
  startsCycle (prevSimulationRef st) v = true -> DEBOUNCE_MS <= d ->
  let st' := step props (Elapse d) (step props (Change v) st) in
  simulateLog st' = simulateLog st ++ [(clock st + d, v)]
  /\ prevSimulationRef st' = Some v
  /\ NoLiveTimer st'
  /\ Quiet st'.
Proof.
  intros Hq Hopen Hv Hne Hcyc Hd. rewrite (step_change_quiet st v Hq Hv Hne). cbv zeta.
  rewrite Hcyc, Hopen. cbn [step]. unfold setClock. state_fields.
  assert (Hdue : (clock st + DEBOUNCE_MS <=? clock st + d)%nat = true)
    by (apply Nat.leb_le; lia).
  rewrite Hdue. unfold clearTimer; unfold setTimerRef. state_fields.
  unfold timerCallback. state_fields. rewrite String.eqb_refl. cbn [andb].
  cbv zeta.
  set (started := simulateDeposit_begin (renderOf props v) _).
  unfold logSimulate, withHook. state_fields.
  set (X := setIsDebouncing false _).
  assert (HX : isFirstRenderRef X = false /\ renderedIsOpen X = isOpen X
               /\ prevSimulationRef X = Some v /\ amount X = v
               /\ amountRef X = v /\ renderedAmount X = v
               /\ simulateLog X = simulateLog st ++ [(clock st + d, v)]
               /\ timerRef X = Some (cancelled (mkTimer v true (clock st + DEBOUNCE_MS) true))).
  { subst X. unfold setIsDebouncing, setPrevSimulationRef.
    destruct (snd started); unfold setInflight; state_fields; repeat split. }
  destruct HX as (X1 & X2 & X3 & X4 & X5 & X6 & X7 & X8).
  destruct (renderScheduled (hook X)) eqn:Hs.
  - rewrite (settle_after_update X X1 X2 Hs). cbv zeta.
    rewrite X3, X4, X5, X6, X7, X8, startsCycle_same.
    unfold NoLiveTimer, Quiet. state_fields. rewrite String.eqb_refl.
    repeat split; try congruence.
  - rewrite (settle_unscheduled X Hs).
    unfold NoLiveTimer, Quiet. rewrite X1, X3, X4, X5, X6, X7, X8. state_fields.
    repeat split; congruence.
Qed.


Lemma run_cons (e : Event) (events : list Event) (st : State K) :
  run props (e :: events) st = run props events (step props e st).
Proof. reflexivity. Qed.

Lemma debounce_burst (early : list (string * nat)) :
  forall (st : State K) (v : string) (d : nat),
    Quiet st -> isOpen st = true ->
    Forall (fun c => amountPattern (fst c) = true) early ->
    amountPattern v = true ->
    eachDiffers (amount st) (map fst early ++ [v]) ->
    Forall (fun c => snd c < DEBOUNCE_MS) early ->
    DEBOUNCE_MS <= d ->
    startsCycle (prevSimulationRef st) v = true ->
    simulateLog (run props (burstEvents early ++ [Change v; Elapse d]) st)
    = simulateLog st ++ [(clock st + burstTime early + d, v)]
    /\ prevSimulationRef (run props (burstEvents early ++ [Change v; Elapse d]) st)
       = Some v.
Proof.
  induction early as [|[v1 d1] early IH]; intros st v d Hq Hopen Hok Hv Hdiff Hshort Hd Hcyc.
  - cbn [burstEvents flat_map app burstTime fold_right map] in *.
    destruct Hdiff as [Hne _]. rewrite !run_cons. cbn [run fold_left].
    destruct (change_then_fire st v d Hq Hopen Hv Hne Hcyc Hd) as (Hlog & Hprev & _).
    rewrite Hlog, Hprev, Nat.add_0_r. now split.
  - cbn [burstEvents flat_map app burstTime fold_right map fst snd] in *.
    destruct Hdiff as [Hne Hdiff].
    inversion Hok as [|? ? Hv1 Hok']; subst.
    inversion Hshort as [|? ? Hd1 Hshort']; subst. cbn [fst snd] in *.
    rewrite !run_cons.
    destruct (change_then_wait st v1 d1 Hq Hv1 Hne Hd1)
      as (Hq' & Hopen' & Hamount' & Hclock' & Hlog' & Hprev').
    set (st' := step props (Elapse d1) (step props (Change v1) st)) in *.
    destruct (IH st' v d) as [Hlog Hprev]; try assumption.
    + congruence.
    + now rewrite Hamount'.
    + now rewrite Hprev'.
    + fold (burstEvents early). rewrite Hlog, Hprev, Hlog', Hclock'. split; [|reflexivity].
      do 3 f_equal. fold (burstTime early). lia.
Qed.


(** *** The shape of the amounts *)

Lemma skipDigits_split (s : string) :
  exists a, s = (a ++ skipDigits s)%string /\ Units.allDigits a = true.
Proof.
  induction s as [|c s (a & Ha & Hd)]; cbn [skipDigits].
  - now exists "".
  - destruct (Units.isDigit c) eqn:Hc.
    + exists (String c a). cbn [String.append Units.allDigits]. rewrite Hc, Hd.
      split; [congruence | reflexivity].
    + now exists "".
Qed.

Lemma skipDigits_app (a rest : string) :
  Units.allDigits a = true -> skipDigits (a ++ rest) = skipDigits rest.
Proof.
  induction a as [|c a IH]; cbn [String.append Units.allDigits skipDigits]; [reflexivity|].
  intros H. apply andb_true_iff in H as [Hc Ha]. rewrite Hc. now apply IH.
Qed.

Lemma string_app_empty (s : string) : (s ++ "")%string = s.
Proof. induction s as [|c s IH]; cbn; congruence. Qed.

Lemma skipDigits_digits (a : string) : Units.allDigits a = true -> skipDigits a = "".
Proof.
  intros H. rewrite <- (string_app_empty a). now rewrite skipDigits_app.
Qed.

Lemma amountPattern_iff (v : string) :
  amountPattern v = true <->
  exists a dot b,
    v = (a ++ dot ++ b)%string
    /\ Units.allDigits a = true /\ Units.allDigits b = true
    /\ (dot = "" \/ dot = ".").
Proof.
  unfold amountPattern. split.
  - destruct (skipDigits_split v) as (a & Hv & Ha).
    destruct (skipDigits v) as [|c r] eqn:Hs.
    + intros _. exists a, "", "". cbn [String.append]. repeat split; auto.
    + intros H. apply andb_true_iff in H as [Hc Hr].
      apply Ascii.eqb_eq in Hc. apply String.eqb_eq in Hr. subst c.
      destruct (skipDigits_split r) as (b & Hb & Hbd). rewrite Hr, string_app_empty in Hb.
      subst r. exists a, ".", b. repeat split; auto.
  - intros (a & dot & b & -> & Ha & Hb & [-> | ->]).
    + cbn [String.append]. rewrite skipDigits_app, skipDigits_digits by assumption.
      reflexivity.
    + rewrite skipDigits_app by assumption. cbn [String.append].
      change (skipDigits (String "." b)) with (String "." b). cbv beta iota.
      rewrite skipDigits_digits by assumption.
      now rewrite Ascii.eqb_refl, String.eqb_refl.
Qed.

Lemma handleChange_spec (v : string) (st : State K) :
  handleChange v st = if amountPattern v then setAmount v st else st.
Proof.
  unfold handleChange. destruct (v =? "") eqn:E; [|reflexivity].
  apply String.eqb_eq in E. now subst v.
Qed.

Lemma prepareSimulation_tag (r : Render K) (p : PendingSimulation) :
  prepareSimulation r = Return p -> s_depositAmount p = depositAmount r.
Proof.
  unfold prepareSimulation.
  destruct (findTokenWithChain _ _) as [td|e]; cbn [bind]; [|discriminate].
  destruct (buildExecuteParams r) as [ep|e]; cbn [bind]; [|discriminate].
  destruct (parseUnits K _ _) as [n|e]; cbn [bind]; [|discriminate].
  now intros [= <-].
Qed.

Lemma simulateDeposit_begin_tag (r : Render K) (h : Store K) (p : PendingSimulation) :
  snd (simulateDeposit_begin r h) = inr p -> s_depositAmount p = depositAmount r.
Proof.
  unfold simulateDeposit_begin. destruct (notReady r); [discriminate|].
  cbv zeta. destruct (prepareSimulation r) as [q|e] eqn:Hq.
  - cbn [snd]. intros [= <-]. now apply prepareSimulation_tag.
  - destruct (simulateCatch e _). discriminate.
Qed.

Lemma removeNth_Forall {A : Type} (P : A -> Prop) (i : nat) (l : list A) :
  Forall P l -> Forall P (removeNth i l).
Proof.
  revert i. induction l as [|x l IH]; intros i H; [destruct i; exact H|].
  inversion H; subst. destruct i; cbn [removeNth]; [assumption|].
  constructor; [assumption | now apply IH].
Qed.

Lemma runEffects_accepted (st : State K) :
  AmountsAccepted st -> AmountsAccepted (runEffects st).
Proof.
  intros (Ha & Ht & Hi & Hl). rewrite runEffects_nf. cbv zeta.
  unfold AmountsAccepted. state_fields. repeat split; try assumption.
  intros t.
  destruct (negb (Bool.eqb (renderedIsOpen st) (isOpen st)) && negb (isOpen st));
    [discriminate|].
  destruct (negb (isFirstRenderRef st) && startsCycle _ _).
  - now intros [= <-].
  - destruct (timerRef st) as [t0|]; [|discriminate].
    intros [= <-]. now apply (Ht t0).
Qed.

Lemma settleWithin_accepted (n : nat) (st : State K) :
  AmountsAccepted st -> AmountsAccepted (settleWithin n st).
Proof.
  revert st. induction n as [|n IH]; intros st H; cbn [settleWithin]; [assumption|].
  destruct (renderScheduled (hook st)); [|assumption].
  now apply IH, runEffects_accepted.
Qed.

Lemma setAmount_accepted (v : string) (st : State K) :
  amountPattern v = true -> AmountsAccepted st -> AmountsAccepted (setAmount v st).
Proof. intros Hv (Ha & Ht & Hi & Hl). now repeat split. Qed.

Lemma timerCallback_accepted (a : string) (o : bool) (st : State K) :
  amountPattern a = true -> AmountsAccepted st ->
  AmountsAccepted (timerCallback props a o st).
Proof.
  intros Hp H. unfold timerCallback. destruct (o && _); [|assumption].
  destruct H as (Ha & Ht & Hi & Hl). cbv zeta.
  set (started := simulateDeposit_begin _ _).
  pose proof (simulateDeposit_begin_tag (renderOf props a)
                (hook (logSimulate a st))) as Htag.
  fold started in Htag.
  unfold setIsDebouncing, setPrevSimulationRef, AmountsAccepted.
  destruct (snd started) as [b|p]; unfold setInflight, withHook, logSimulate;
    state_fields; repeat split; try assumption.
  - apply Forall_app. split; [assumption|]. now repeat constructor.
  - apply Forall_app. split; [assumption|]. repeat constructor.
    now rewrite (Htag p eq_refl).
  - apply Forall_app. split; [assumption|]. now repeat constructor.
Qed.

Lemma step_accepted (e : Event) (st : State K) :
  (e = SetMax -> amountPattern (walletBalance props) = true) ->
  AmountsAccepted st -> AmountsAccepted (step props e st).
Proof.
  intros Hmax H. destruct e as [| |v| | |dt|i answer]; cbn [step].
  - apply settleWithin_accepted. unfold handleOpen.
    apply setAmount_accepted; [reflexivity|].
    destruct H as (Ha & Ht & Hi & Hl). now repeat split.
  - apply settleWithin_accepted. unfold handleClose.
    assert (H' : AmountsAccepted (setAmount "" (setIsOpen false st))).
    { apply setAmount_accepted; [reflexivity|].
      destruct H as (Ha & Ht & Hi & Hl). now repeat split. }
    destruct (timerRef (setAmount "" (setIsOpen false st))); [|assumption].
    destruct H' as (Ha & Ht & Hi & Hl). repeat split; try assumption. discriminate.
  - apply settleWithin_accepted. rewrite handleChange_spec.
    destruct (amountPattern v) eqn:Hv; [now apply setAmount_accepted | assumption].
  - apply settleWithin_accepted. apply setAmount_accepted; [now apply Hmax | assumption].
  - apply settleWithin_accepted. destruct H as (Ha & Ht & Hi & Hl). now repeat split.
  - assert (H' : AmountsAccepted (setClock (clock st + dt) st))
      by (destruct H as (Ha & Ht & Hi & Hl); now repeat split).
    destruct (timerRef (setClock (clock st + dt) st)) as [t|] eqn:Et; [|assumption].
    destruct (live t && _); [|assumption].
    apply settleWithin_accepted, timerCallback_accepted.
    + destruct H' as (_ & Ht & _). now apply Ht.
    + destruct H' as (Ha & Ht & Hi & Hl). unfold clearTimer, setTimerRef.
      repeat split; try assumption. state_fields. rewrite Et. cbn [option_map].
      intros t' [= <-]. now apply (Ht t).
  - destruct (nth_error (inflight st) i) as [p|]; [|assumption].
    apply settleWithin_accepted. destruct H as (Ha & Ht & Hi & Hl).
    repeat split; try assumption. state_fields. now apply removeNth_Forall.
Qed.

Lemma run_accepted (events : list Event) (st : State K) :
  amountPattern (walletBalance props) = true \/ ~ In SetMax events ->
  AmountsAccepted st -> AmountsAccepted (run props events st).
Proof.
  revert st. induction events as [|e events IH]; intros st Hmax H; [assumption|].
  rewrite run_cons. apply IH.
  - destruct Hmax as [Hw | Hno]; [now left | right]. intros Hin. apply Hno. now right.
  - apply step_accepted; [|assumption]. intros ->.
    destruct Hmax as [Hw | Hno]; [assumption|]. exfalso. apply Hno. now left.
Qed.


(** *** Between two events the modal is quiet *)

Lemma runEffects_aligned (st : State K) :
  (renderedAmount st = amount st -> amountRef st = amount st) ->
  isFirstRenderRef (runEffects st) = false
  /\ amountRef (runEffects st) = amount (runEffects st)
  /\ renderedAmount (runEffects st) = amount (runEffects st)
  /\ renderedIsOpen (runEffects st) = isOpen (runEffects st).
Proof.
  intros H. rewrite runEffects_nf. cbv zeta. state_fields. repeat split.
  destruct (renderedAmount st =? amount st) eqn:E; [|reflexivity].
  apply String.eqb_eq in E. now apply H.
Qed.

Lemma runEffects_twice_quiet (st : State K) :
  isFirstRenderRef st = false -> renderedIsOpen st = isOpen st ->
  renderScheduled (hook (runEffects st)) = true ->
  renderScheduled (hook (runEffects (runEffects st))) = false.
Proof.
  intros Hf Ho. rewrite !runEffects_nf. cbv zeta. state_fields.
  rewrite Hf, Ho, !eqb_reflx. cbn [negb andb].
  unfold askRender, renderDone. state_fields. cbn [orb].
  destruct (startsCycle (prevSimulationRef st) (amount st)); cbn [andb orb].
  - destruct (isDebouncing st); cbn [negb]; [discriminate | reflexivity].
  - discriminate.
Qed.

(** Three renders are enough, whatever the state: after [settle] no render
    is pending. *)
Lemma settle_no_render_pending (st : State K) :
  renderScheduled (hook (settle st)) = false.
Proof.
  unfold settle. cbn [settleWithin].
  destruct (renderScheduled (hook st)) eqn:E0; [|exact E0].
  destruct (renderScheduled (hook (runEffects st))) eqn:E1; [|exact E1].
  assert (A1 : isFirstRenderRef (runEffects st) = false)
    by (rewrite runEffects_nf; reflexivity).
  assert (A4 : renderedIsOpen (runEffects st) = isOpen (runEffects st))
    by (rewrite runEffects_nf; reflexivity).
  destruct (renderScheduled (hook (runEffects (runEffects st)))) eqn:E2; [|exact E2].
  now apply (runEffects_twice_quiet (runEffects st) A1 A4).
Qed.

Lemma settle_quiet (st : State K) : Settling st -> Quiet (settle st).
Proof.
  intros (Hf & Hr & Hs). unfold settle. cbn [settleWithin].
  destruct (renderScheduled (hook st)) eqn:E0.
  - destruct (runEffects_aligned st Hr) as (A1 & A2 & A3 & A4).
    destruct (renderScheduled (hook (runEffects st))) eqn:E1.
    + assert (A2' : renderedAmount (runEffects st) = amount (runEffects st) ->
                    amountRef (runEffects st) = amount (runEffects st)) by (intros _; exact A2).
      destruct (runEffects_aligned (runEffects st) A2') as (B1 & B2 & B3 & B4).
      pose proof (runEffects_twice_quiet (runEffects st) A1 A4) as Hstop.
      destruct (renderScheduled (hook (runEffects (runEffects st)))) eqn:E2.
      * assert (B2' : renderedAmount (runEffects (runEffects st))
                      = amount (runEffects (runEffects st)) ->
                      amountRef (runEffects (runEffects st))
                      = amount (runEffects (runEffects st))) by (intros _; exact B2).
        destruct (runEffects_aligned (runEffects (runEffects st)) B2')
          as (C1 & C2 & C3 & C4).
        unfold Quiet. repeat split; try assumption.
        now apply (runEffects_twice_quiet (runEffects st) A1 A4).
      * unfold Quiet. now repeat split.
    + unfold Quiet. now repeat split.
  - destruct (Hs eq_refl) as [H1 H2]. unfold Quiet. repeat split; auto.
Qed.

Lemma settling_aligned (st : State K) :
  isFirstRenderRef st = false -> amountRef st = amount st ->
  renderedAmount st = amount st -> renderedIsOpen st = isOpen st ->
  Settling st.
Proof. intros. unfold Settling. repeat split; auto. Qed.

Lemma settling_setAmount (v : string) (st : State K) :
  Quiet st -> Settling (setAmount v st).
Proof.
  intros (Hs & Hf & Hr & Hra & Hro).
  unfold Settling, setAmount, askRender. state_fields. rewrite Hs. cbn [orb].
  split; [assumption|]. split.
  - congruence.
  - intros H. apply negb_false_iff, String.eqb_eq in H. split; congruence.
Qed.

Lemma settling_setIsOpen_setAmount (b : bool) (v : string) (st : State K) :
  Quiet st -> Settling (setAmount v (setIsOpen b st)).
Proof.
  intros (Hs & Hf & Hr & Hra & Hro).
  unfold Settling, setAmount, setIsOpen, askRender. state_fields. rewrite Hs. cbn [orb].
  split; [assumption|]. split.
  - congruence.
  - intros H. apply orb_false_iff in H as [H1 H2].
    apply negb_false_iff, eqb_prop in H1.
    apply negb_false_iff, String.eqb_eq in H2. split; congruence.
Qed.

Lemma step_quiet (e : Event) (st : State K) : Quiet st -> Quiet (step props e st).
Proof.
  intros Hq. pose proof Hq as (Hs & Hf & Hr & Hra & Hro).
  destruct e as [| |v| | |dt|i answer]; cbn [step].
  - apply settle_quiet. now apply settling_setIsOpen_setAmount.
  - apply settle_quiet. unfold handleClose.
    pose proof (settling_setIsOpen_setAmount false "" st Hq) as Hc.
    destruct (timerRef (setAmount "" (setIsOpen false st))); exact Hc.
  - apply settle_quiet. rewrite handleChange_spec.
    destruct (amountPattern v); [now apply settling_setAmount|].
    now apply settling_aligned.
  - apply settle_quiet. now apply settling_setAmount.
  - apply settle_quiet. now apply settling_aligned.
  - unfold setClock. state_fields.
    destruct (timerRef st) as [t|]; [|unfold Quiet; now repeat split].
    destruct (live t && _); [|unfold Quiet; now repeat split].
    apply settle_quiet. unfold timerCallback, clearTimer, setTimerRef. state_fields.
    destruct (armedIsOpen t && _).
    + cbv zeta. unfold setIsDebouncing, setPrevSimulationRef.
      destruct (snd (simulateDeposit_begin _ _));
        unfold setInflight, withHook, logSimulate; state_fields;
        now apply settling_aligned.
    + now apply settling_aligned.
  - destruct (nth_error (inflight st) i); [|exact Hq].
    apply settle_quiet. now apply settling_aligned.
Qed.

Lemma run_quiet (events : list Event) (st : State K) :
  Quiet st -> Quiet (run props events st).
Proof.
  revert st. induction events as [|e events IH]; intros st H; [assumption|].
  rewrite run_cons. now apply IH, step_quiet.
Qed.

Lemma mounted_quiet : Quiet (mounted K).
Proof. unfold Quiet, mounted. state_fields. now repeat split. Qed.

(** *** Delivery of a simulation result *)

Lemma summarize_tag (p : PendingSimulation)
  (reply : Engine.BridgeAndExecuteSimulationResult) (native : Engine.NativeCurrency)
  (es : Engine.ExecuteSimulation) (summary : SimulationResult K) :
  summarize K p reply native es = Return summary ->
  destinationAmount summary = s_depositAmount p.
Proof.
  unfold summarize. cbv zeta.
  destruct (formatTokenBalance K _ _ _) as [g|e]; cbn [bind]; [|discriminate].
  destruct (formatUnits K _ _) as [u|e]; cbn [bind]; [|discriminate].
  destruct (getFiatValue K (parseFloat K u) _) as [gu|e]; cbn [bind]; [|discriminate].
  destruct (Engine.bridgeSimulation reply) as [b|].
  - destruct (getFiatValue K _ _) as [bu|e]; cbn [bind]; [|discriminate].
    now intros [= <-].
  - cbn [bind]. now intros [= <-].
Qed.

Lemma simulateDeposit_resume_success (p : PendingSimulation)
  (reply : Engine.BridgeAndExecuteSimulationResult) (native : Engine.NativeCurrency)
  (es : Engine.ExecuteSimulation) (summary : SimulationResult K) (h : Store K) :
  CHAIN_METADATA K (id (fst (s_tokenDeets p))) = Return native ->
  Engine.executeSimulation reply = Some es ->
  summarize K p reply native es = Return summary ->
  simulation (fst (simulateDeposit_resume p (Return reply) h)) = Some summary
  /\ snd (simulateDeposit_resume p (Return reply) h) = true.
Proof.
  intros Hmeta Hes Hsum. unfold simulateDeposit_resume.
  rewrite Hmeta, Hes, Hsum. split; reflexivity.
Qed.

Lemma settle_simulation (st : State K) :
  simulation (hook (settle st)) = simulation (hook st).
Proof.
  destruct (settleWithin_frame 3 st) as (_ & _ & _ & _ & _ & H & _).
  exact H.
Qed.

(** C1 (as the code has it).  A simulation is tagged with the amount it was
    launched for: that amount is what the pending call keeps and what the
    summary records as [destinationAmount].  When the engine answers with an
    execute leg and the summary can be computed, the summary is stored on
    arrival, whatever amount the modal shows by then: the arrival does not
    look at the current amount. *)
Theorem simulation_result_applied_on_arrival (st : State K) (i : nat)
  (p : PendingSimulation) (reply : Engine.BridgeAndExecuteSimulationResult)
  (native : Engine.NativeCurrency) (es : Engine.ExecuteSimulation)
  (summary : SimulationResult K)
  (Hflight : nth_error (inflight st) i = Some p)
  (Hmeta : CHAIN_METADATA K (id (fst (s_tokenDeets p))) = Return native)
  (Hes : Engine.executeSimulation reply = Some es)
  (Hsum : summarize K p reply native es = Return summary) :
  simulation (hook (step props (Deliver i (Return reply)) st)) = Some summary
  /\ destinationAmount summary = s_depositAmount p
  /\ amount (step props (Deliver i (Return reply)) st) = amount st
  /\ (forall (r : Render K) (h : Store K) (q : PendingSimulation),
         snd (simulateDeposit_begin r h) = inr q -> s_depositAmount q = depositAmount r).
Proof.
  cbn [step]. rewrite Hflight. rewrite settle_simulation.
  destruct (settleWithin_frame 3
              (withHook (fun h => fst (simulateDeposit_resume p (Return reply) h))
                 (setInflight (removeNth i (inflight st)) st))) as (Ha & _).
  unfold settle. rewrite Ha. unfold withHook, setInflight. state_fields.
  repeat split.
  - now apply (simulateDeposit_resume_success p reply native es).
  - now apply (summarize_tag p reply native es).
  - apply simulateDeposit_begin_tag.
Qed.

(** C7 (as the code has it).  In an open modal, a burst of accepted edits,
    each made before the timer of the previous one is due, followed by a
    wait of at least the debounce window, makes exactly one call to
    [simulateDeposit]: for the last amount, when that wait is over.  A cycle
    starts exactly for an amount that is not empty, is not "0" and differs
    from the marker [prevSimulationRef]; otherwise [debouncedSimulation]
    changes nothing.  The marker is the amount of the last simulation
    launched: the timer callback sets it right after calling
    [simulateDeposit], whatever becomes of that call. *)
Theorem debounce_last_value_wins (st : State K) (early : list (string * nat))
  (v : string) (d : nat)
  (Hquiet : Quiet st) (Hopen : isOpen st = true)
  (Haccepted : Forall (fun c => amountPattern (fst c) = true) early)
  (Hv : amountPattern v = true)
  (Hchanges : eachDiffers (amount st) (map fst early ++ [v]))
  (Hwithin : Forall (fun c => snd c < DEBOUNCE_MS) early)
  (Hwait : DEBOUNCE_MS <= d)
  (Hnonempty : v <> "") (Hnonzero : v <> "0")
  (Hnew : prevSimulationRef st <> Some v) :
  (simulateLog (run props (burstEvents early ++ [Change v; Elapse d]) st)
   = simulateLog st ++ [(clock st + burstTime early + d, v)]
   /\ prevSimulationRef (run props (burstEvents early ++ [Change v; Elapse d]) st)
      = Some v)
  /\ (forall (a : string) (o : bool) (s : State K),
         (startsCycle (prevSimulationRef s) a = true
          <-> a <> "" /\ a <> "0" /\ prevSimulationRef s <> Some a)
         /\ (startsCycle (prevSimulationRef s) a = true ->
             timerRef (debouncedSimulation a o s)
             = Some (mkTimer a o (clock s + DEBOUNCE_MS) true)
             /\ isDebouncing (debouncedSimulation a o s) = true)
         /\ (startsCycle (prevSimulationRef s) a = false ->
             debouncedSimulation a o s = s))
  /\ (forall (a : string) (s : State K),
         amountRef s = a ->
         prevSimulationRef (timerCallback props a true s) = Some a).
Proof.
  split; [|split].
  - apply debounce_burst; try assumption. now apply startsCycle_true.
  - intros a o s. split; [|split].
    + split.
      * unfold startsCycle, truthy, differsFrom. intros H.
        apply andb_true_iff in H as [H H3]. apply andb_true_iff in H as [H1 H2].
        apply negb_true_iff in H1, H2. apply String.eqb_neq in H1, H2.
        repeat split; try assumption.
        destruct (prevSimulationRef s) as [q|]; [|discriminate].
        apply negb_true_iff, String.eqb_neq in H3. congruence.
      * intros (H1 & H2 & H3). now apply startsCycle_true.
    + intros H. rewrite debouncedSimulation_nf. cbv zeta. rewrite H. now state_fields.
    + intros H. unfold debouncedSimulation. fold (startsCycle (prevSimulationRef s) a).
      now rewrite H.
  - intros a s <-. unfold timerCallback. rewrite String.eqb_refl. cbn [andb]. cbv zeta.
    unfold setIsDebouncing, setPrevSimulationRef. now state_fields.
Qed.

(** C10 (as the code has it).  The amount-change handler stores its input
    exactly when the input is digits, at most one dot, digits (the empty
    string included), and otherwise leaves the stored amount alone.  So as
    long as amounts come from the handler, from opening or from closing the
    modal, every amount stored, armed in the timer, in flight or passed to
    [simulateDeposit] has that shape.  The MAX button stores the wallet
    balance as it is given: the guarantee covers it only when the balance
    has that shape too. *)
Theorem amounts_follow_pattern (events : list Event) :
  (forall (v : string) (st : State K),
      handleChange v st = if amountPattern v then setAmount v st else st)
  /\ (forall v : string,
         amountPattern v = true <->
         exists a dot b,
           v = (a ++ dot ++ b)%string
           /\ Units.allDigits a = true /\ Units.allDigits b = true
           /\ (dot = "" \/ dot = "."))
  /\ (amountPattern (walletBalance props) = true \/ ~ In SetMax events ->
      AmountsAccepted (run props events (mounted K))).
Proof.
  split; [|split].
  - apply handleChange_spec.
  - apply amountPattern_iff.
  - intros Hmax. apply run_accepted; [assumption|].
    unfold AmountsAccepted, mounted. state_fields.
    repeat split; try constructor. discriminate.
Qed.

End ModalProperties.

Local Transparent DEBOUNCE_MS String.eqb.

(** ** The examples of the specification, and where the code differs *)

Lemma simulation_result_applied_on_arrival_witness :
  simulation (hook (step demoProps (Deliver 0 (Return demoReply)) demoStale))
  = Some demoSummary
  /\ destinationAmount demoSummary = "1.23"
  /\ amount (step demoProps (Deliver 0 (Return demoReply)) demoStale) = "5".
Proof.
  pose proof (simulation_result_applied_on_arrival demoK demoProps demoStale 0
                demoPending demoReply
                {| Engine.nativeSymbol := "ETH"; Engine.nativeDecimals := 18 |}
                {| Engine.gasFee := 21000 |} demoSummary
                eq_refl eq_refl eq_refl eq_refl) as (H1 & H2 & H3 & _).
  split; [exact H1 | split; [exact H2 | exact H3]].
Defined.

(** C1, the claim as stated fails: the simulation launched for "1.23" is
    answered while the modal shows "5", and its summary is stored all the
    same. *)
Lemma stale_simulation_overwrites_summary :
  amount demoStale = "5"
  /\ inflight demoStale = [demoPending]
  /\ simulation (hook demoStale) = None
  /\ simulation (hook (step demoProps (Deliver 0 (Return demoReply)) demoStale))
     = Some demoSummary
  /\ destinationAmount demoSummary = "1.23"
  /\ amount (step demoProps (Deliver 0 (Return demoReply)) demoStale) = "5".
Proof. vm_compute. repeat split. Qed.

Lemma debounce_last_value_wins_witness :
  simulateLog
    (run demoProps
       [Change "1"; Elapse 100; Change "1.2"; Elapse 100; Change "1.23"; Elapse 1000]
       demoOpened)
  = [(1200, "1.23")]
  /\ prevSimulationRef
       (run demoProps
          [Change "1"; Elapse 100; Change "1.2"; Elapse 100; Change "1.23"; Elapse 1000]
          demoOpened)
     = Some "1.23".
Proof.
  refine (proj1 (debounce_last_value_wins demoK demoProps demoOpened
                   [("1", 100); ("1.2", 100)] "1.23" 1000 _ _ _ _ _ _ _ _ _ _)).
  - unfold Quiet. vm_compute. repeat split.
  - reflexivity.
  - repeat constructor.
  - reflexivity.
  - vm_compute. repeat split; discriminate.
  - unfold DEBOUNCE_MS. repeat constructor; cbn [snd]; lia.
  - unfold DEBOUNCE_MS. lia.
  - discriminate.
  - discriminate.
  - vm_compute. discriminate.
Defined.

(** C7, the claim as stated fails: "5" is the last amount simulated with
    success, the simulation for "6" failed, and going back to "5" starts a
    debounce cycle for "5". *)
Lemma debounce_restarts_for_simulated_amount :
  option_map (@destinationAmount demoK) (simulation (hook demoRelaunch)) = Some "5"
  /\ amount demoRelaunch = "5"
  /\ prevSimulationRef demoRelaunch = Some "6"
  /\ timerRef demoRelaunch = Some (mkTimer "5" true 3000 true)
  /\ isDebouncing demoRelaunch = true.
Proof. vm_compute. repeat split. Qed.

(** C10, the claim as stated fails: the MAX button stores the wallet balance
    without the test the handler applies, and that amount reaches
    [simulateDeposit]. *)
Lemma max_button_bypasses_pattern :
  amountPattern (walletBalance demoProps) = false
  /\ amount (run demoProps [Open; SetMax] (mounted demoK)) = "1e-7"
  /\ simulateLog (run demoProps [Open; SetMax; Elapse 1000] (mounted demoK))
     = [(1000, "1e-7")].
Proof. vm_compute. repeat split. Qed.

(** * Further properties of the code *)

(** ** The hook: flags, toasts and the prepared request *)

Section MoreHookProperties.

Variable K : Collaborators.

(** X1.  An execute attempt of a ready hook always ends with the loading flag
    down and the step text empty, whatever the engine answers and also when
    the preparation throws; while the engine call is pending the flag is up
    and the step text is "Initiating bridge...". *)
Theorem executeDeposit_loading_flag (r : Render K)
  (engine : Engine.BridgeAndExecuteParams -> Outcome Engine.BridgeAndExecuteResult)
  (st : Store K)
  (Hready : notReady r = false) :
  isLoading (fst (executeDeposit r engine st)) = false
  /\ currentStep (fst (executeDeposit r engine st)) = ""
  /\ (forall st1 p,
         executeDeposit_begin r st = (st1, inr p) ->
         isLoading st1 = true /\ currentStep st1 = "Initiating bridge...").
Proof.
  rewrite (executeDeposit_unfold K r engine st Hready). cbv zeta.
  split; [|split].
  - destruct (prepareExecution r) as [p|e]; [|reflexivity].
    unfold executeDeposit_resume.
    destruct (engine (x_params p)) as [result|e]; [|reflexivity].
    destruct (truthy_opt (Engine.executeTransactionHash result)); reflexivity.
  - destruct (prepareExecution r) as [p|e]; [|reflexivity].
    unfold executeDeposit_resume.
    destruct (engine (x_params p)) as [result|e]; [|reflexivity].
    destruct (truthy_opt (Engine.executeTransactionHash result)); reflexivity.
  - intros st1 p. unfold executeDeposit_begin. rewrite Hready. cbv zeta.
    destruct (prepareExecution r) as [q|e].
    + intros [= <- _]. split; reflexivity.
    + destruct (executeCatch e _). discriminate.
Qed.

(** X2.  A ready execute attempt shows exactly one toast: the success toast
    when it returns [success:true], an error toast otherwise.  When the SDK
    or the wallet is missing it returns "SDK not initialized" and shows and
    changes nothing, and the engine is not called. *)
Theorem executeDeposit_one_toast (r : Render K)
  (engine : Engine.BridgeAndExecuteParams -> Outcome Engine.BridgeAndExecuteResult)
  (st : Store K) :
  (notReady r = false ->
   exists t,
     toasts (fst (executeDeposit r engine st)) = toasts st ++ [t]
     /\ (success (snd (executeDeposit r engine st)) = true ->
         exists text action, t = ToastSuccess text action)
     /\ (success (snd (executeDeposit r engine st)) = false ->
         exists text, t = ToastError text))
  /\ (notReady r = true ->
      executeDeposit r engine st
      = (st, {| success := false; error := Some "SDK not initialized";
                txHash := None; explorerUrl := None |})).
Proof.
  split.
  - intros Hready. rewrite (executeDeposit_unfold K r engine st Hready). cbv zeta.
    destruct (prepareExecution r) as [p|e].
    + unfold executeDeposit_resume.
      destruct (engine (x_params p)) as [result|e].
      * destruct (truthy_opt (Engine.executeTransactionHash result)).
        -- eexists. split; [reflexivity|]. split; [eauto | discriminate].
        -- eexists. split; [reflexivity|]. split; [discriminate | eauto].
      * eexists. split; [reflexivity|]. split; [discriminate | eauto].
    + eexists. split; [reflexivity|]. split; [discriminate | eauto].
  - intros Hnot. unfold executeDeposit, executeDeposit_begin. now rewrite Hnot.
Qed.

(** X3.  When the engine answers a simulation, [simulateDeposit] ends with
    the simulating flag down and the step text empty, whatever the answer.
    Before that, a ready hook either throws while preparing (flag down, text
    empty) or reaches the engine with the flag up and the text
    "Simulating transaction...". *)
Theorem simulateDeposit_simulating_flag (r : Render K) (st : Store K) :
  (forall p answer,
      isSimulating (fst (simulateDeposit_resume p answer st)) = false
      /\ currentStep (fst (simulateDeposit_resume p answer st)) = "")
  /\ (notReady r = false ->
      match snd (simulateDeposit_begin r st) with
      | inr _ =>
          isSimulating (fst (simulateDeposit_begin r st)) = true
          /\ currentStep (fst (simulateDeposit_begin r st)) = "Simulating transaction..."
      | inl b =>
          b = false
          /\ isSimulating (fst (simulateDeposit_begin r st)) = false
          /\ currentStep (fst (simulateDeposit_begin r st)) = ""
      end).
Proof.
  split.
  - intros p answer. unfold simulateDeposit_resume.
    destruct answer as [reply|e]; [|split; reflexivity].
    destruct (CHAIN_METADATA K _) as [native|e]; [|split; reflexivity].
    destruct (Engine.executeSimulation reply) as [es|]; [|split; reflexivity].
    destruct (summarize K p reply native es); split; reflexivity.
  - intros Hready. unfold simulateDeposit_begin. rewrite Hready. cbv zeta.
    destruct (prepareSimulation r) as [p|e].
    + split; reflexivity.
    + repeat split.
Qed.

Lemma summarize_fields (p : PendingSimulation)
  (reply : Engine.BridgeAndExecuteSimulationResult) (native : Engine.NativeCurrency)
  (es : Engine.ExecuteSimulation) (summary : SimulationResult K) :
  summarize K p reply native es = Return summary ->
  simulation_raw summary = reply
  /\ destinationAmount summary = s_depositAmount p
  /\ totalCost summary = num_toString K (num_add K (bridgeFee summary) (gasUsd summary))
  /\ (Engine.bridgeSimulation reply = None -> bridgeFee summary = num_zero K).
Proof.
  unfold summarize. cbv zeta.
  destruct (formatTokenBalance K _ _ _) as [g|e]; cbn [bind]; [|discriminate].
  destruct (formatUnits K _ _) as [u|e]; cbn [bind]; [|discriminate].
  destruct (getFiatValue K (parseFloat K u) _) as [gu|e]; cbn [bind]; [|discriminate].
  destruct (Engine.bridgeSimulation reply) as [b|].
  - destruct (getFiatValue K _ _) as [bu|e]; cbn [bind]; [|discriminate].
    intros [= <-]. repeat split. discriminate.
  - cbn [bind]. intros [= <-]. repeat split.
Qed.

(** X4.  A simulation that ends with [true] has stored the engine's answer
    as the multi-step result and a summary that carries that same answer,
    the amount the simulation was launched for, and a total that is the sum
    of bridge fee and gas.  When the answer has no bridge leg the bridge fee
    is zero and one info toast says that no bridging is needed; with a
    bridge leg nothing is shown. *)
Theorem simulateDeposit_success_summary (p : PendingSimulation)
  (reply : Engine.BridgeAndExecuteSimulationResult) (st : Store K)
  (Hok : snd (simulateDeposit_resume p (Return reply) st) = true) :
  multiStepResult (fst (simulateDeposit_resume p (Return reply) st)) = Some reply
  /\ (exists summary,
         simulation (fst (simulateDeposit_resume p (Return reply) st)) = Some summary
         /\ simulation_raw summary = reply
         /\ destinationAmount summary = s_depositAmount p
         /\ totalCost summary
            = num_toString K (num_add K (bridgeFee summary) (gasUsd summary))
         /\ (Engine.bridgeSimulation reply = None -> bridgeFee summary = num_zero K))
  /\ toasts (fst (simulateDeposit_resume p (Return reply) st))
     = toasts st
       ++ match Engine.bridgeSimulation reply with
          | None => [ToastInfo "No bridging needed - funds already on destination chain"]
          | Some _ => []
          end.
Proof.
  revert Hok. unfold simulateDeposit_resume.
  destruct (CHAIN_METADATA K _) as [native|e]; [|discriminate].
  destruct (Engine.executeSimulation reply) as [es|]; [|discriminate].
  destruct (summarize K p reply native es) as [summary|e] eqn:Hsum; [|discriminate].
  intros _. pose proof (summarize_fields p reply native es summary Hsum) as Hfields.
  destruct (Engine.bridgeSimulation reply) as [b|].
  - split; [reflexivity|]. split.
    + exists summary. split; [reflexivity | exact Hfields].
    + cbn. now rewrite app_nil_r.
  - split; [reflexivity|]. split.
    + exists summary. split; [reflexivity | exact Hfields].
    + reflexivity.
Qed.

(** X5.  For a ready hook, a simulation and an execute attempt prepare the
    same engine request (same token, amount, destination chain and execute
    call); the execute request alone asks to wait for the receipt, for at
    most 300000 ms.  When preparing fails, both fail with the same thrown
    value. *)
Theorem simulate_and_execute_prepare_alike (r : Render K)
  (Hready : notReady r = false) :
  match prepareSimulation r, prepareExecution r with
  | Return s, Return x =>
      sameRequest (s_params s) (x_params x)
      /\ s_tokenDeets s = x_tokenDeets x
      /\ Engine.waitForReceipt (s_params s) = None
      /\ Engine.receiptTimeout (s_params s) = None
      /\ Engine.waitForReceipt (x_params x) = Some true
      /\ Engine.receiptTimeout (x_params x) = Some 300000%Z
  | Throw e1, Throw e2 => e1 = e2
  | _, _ => False
  end.
Proof.
  unfold notReady in Hready. apply orb_false_iff in Hready as [_ Hw].
  apply negb_false_iff in Hw.
  unfold prepareSimulation, prepareExecution, buildExecuteParams.
  destruct (address r) as [w|]; [|discriminate]. cbn [truthy_opt] in Hw. rewrite Hw.
  cbn [negb].
  destruct (findTokenWithChain _ _) as [td|e]; cbn [bind]; [|reflexivity].
  destruct (parseUnits K _ _) as [n|e]; cbn [bind]; [|reflexivity].
  destruct (encodeFunctionData K _ _ _ _) as [enc|e]; cbn [bind]; [|reflexivity].
  unfold sameRequest. cbn. repeat split.
Qed.

(** X6.  In a prepared execute request the token and the chain are those of
    the resolved token, the bridged amount is the entered amount converted
    with that token's decimals, and the approval matches the request: same
    token, same amount, and as spender the very pool contract the call goes
    to.  The call carries no native value. *)
Theorem prepared_request_consistent (r : Render K) (x : PendingExecution)
  (Hprep : prepareExecution r = Return x) :
  let request := x_params x in
  let call := Engine.execute request in
  let approval := Engine.tokenApproval call in
  findTokenWithChain (supportedChainsAndTokens r) (assetAddress r)
  = Return (x_tokenDeets x)
  /\ parseUnits K (depositAmount r) (decimals (snd (x_tokenDeets x)))
     = Return (Engine.p_amount request)
  /\ Engine.p_token request = symbol (snd (x_tokenDeets x))
  /\ Engine.toChainId request = id (fst (x_tokenDeets x))
  /\ Engine.token approval = Engine.p_token request
  /\ Engine.amount approval = Engine.p_amount request
  /\ Engine.spender approval = Engine.to call
  /\ Engine.to call = LENDING_POOL K (market r)
  /\ Engine.value call = 0%Z
  /\ x_depositAmount x = depositAmount r.
Proof.
  revert Hprep. unfold prepareExecution, buildExecuteParams.
  destruct (address r) as [w|]; cbn [bind]; [|discriminate].
  destruct (negb (truthy w)); cbn [bind]; [discriminate|].
  destruct (findTokenWithChain _ _) as [td|e] eqn:Hf; cbn [bind]; [|discriminate].
  destruct (parseUnits K _ _) as [n|e] eqn:Hp; cbn [bind]; [|discriminate].
  destruct (encodeFunctionData K _ _ _ _) as [enc|e]; cbn [bind]; [|discriminate].
  intros [= <-]. cbn. repeat split; assumption.
Qed.

End MoreHookProperties.

Lemma executeDeposit_loading_flag_witness :
  isLoading (fst (executeDeposit demoRender (fun _ => Return hashReply)
                    (initialStore demoK))) = false
  /\ currentStep (fst (executeDeposit demoRender (fun _ => Return hashReply)
                         (initialStore demoK))) = "".
Proof.
  pose proof (executeDeposit_loading_flag demoK demoRender (fun _ => Return hashReply)
                (initialStore demoK) eq_refl) as (H1 & H2 & _).
  split; [exact H1 | exact H2].
Defined.

Lemma simulateDeposit_success_summary_witness :
  multiStepResult (fst (simulateDeposit_resume demoPending (Return demoReply)
                          (initialStore demoK))) = Some demoReply
  /\ toasts (fst (simulateDeposit_resume demoPending (Return demoReply)
                    (initialStore demoK)))
     = [ToastInfo "No bridging needed - funds already on destination chain"].
Proof.
  pose proof (simulateDeposit_success_summary demoK demoPending demoReply
                (initialStore demoK) eq_refl) as (H1 & _ & H3).
  split; [exact H1 | exact H3].
Defined.

Lemma simulate_and_execute_prepare_alike_witness :
  notReady demoRender = false
  /\ match prepareSimulation demoRender, prepareExecution demoRender with
     | Return s, Return x =>
         sameRequest (s_params s) (x_params x)
         /\ s_tokenDeets s = x_tokenDeets x
         /\ Engine.waitForReceipt (s_params s) = None
         /\ Engine.receiptTimeout (s_params s) = None
         /\ Engine.waitForReceipt (x_params x) = Some true
         /\ Engine.receiptTimeout (x_params x) = Some 300000%Z
     | Throw e1, Throw e2 => e1 = e2
     | _, _ => False
     end.
Proof.
  split; [reflexivity|].
  apply (simulate_and_execute_prepare_alike demoK demoRender). reflexivity.
Defined.

Lemma prepared_request_consistent_witness :
  prepareExecution demoRender = Return demoExecution
  /\ parseUnits demoK "1.23" 6 = Return 1230000%Z
  /\ Engine.spender (Engine.tokenApproval (Engine.execute (x_params demoExecution)))
     = LENDING_POOL demoK (market demoRender).
Proof.
  assert (Hprep : prepareExecution demoRender = Return demoExecution)
    by (vm_compute; reflexivity).
  pose proof (prepared_request_consistent demoK demoRender demoExecution Hprep)
    as (_ & H2 & _ & _ & _ & _ & H7 & H8 & _).
  split; [exact Hprep|]. split; [exact H2|]. now rewrite H7.
Defined.

(** ** Letter case of addresses *)

Lemma lower_ascii_idempotent (c : ascii) : lower_ascii (lower_ascii c) = lower_ascii c.
Proof. destruct c as [[] [] [] [] [] [] [] []]; reflexivity. Qed.

Lemma toLowerCase_idempotent (s : string) : toLowerCase (toLowerCase s) = toLowerCase s.
Proof.
  induction s as [|c s IH]; cbn [toLowerCase]; [reflexivity|].
  now rewrite lower_ascii_idempotent, IH.
Qed.

Lemma find_same_test {A : Type} (p q : A -> bool) (l : list A) :
  (forall x, p x = q x) -> List.find p l = List.find q l.
Proof.
  intros H. induction l as [|x l IH]; cbn [List.find]; [reflexivity|].
  now rewrite H, IH.
Qed.

Lemma searchChains_same_case (chains : list Chain) (a b : string) :
  toLowerCase a = toLowerCase b -> searchChains chains a = searchChains chains b.
Proof.
  intros H. induction chains as [|c chains IH]; cbn [searchChains]; [reflexivity|].
  rewrite (find_same_test (sameAddress a) (sameAddress b)), IH; [reflexivity|].
  intros t. unfold sameAddress. now rewrite H.
Qed.

(** X7.  Resolution looks at the requested address only up to letter case:
    two addresses that are equal once lowered resolve to the same chain and
    token, or both fail; in particular an address and its lower-case form
    resolve alike. *)
Theorem findTokenWithChain_ignores_case
  (catalog : option (list Chain)) (a b : string)
  (Hcase : toLowerCase a = toLowerCase b) :
  (forall found,
      findTokenWithChain catalog a = Return found
      <-> findTokenWithChain catalog b = Return found)
  /\ (forall found,
         findTokenWithChain catalog (toLowerCase a) = Return found
         <-> findTokenWithChain catalog a = Return found).
Proof.
  assert (Hgen : forall x y, toLowerCase x = toLowerCase y ->
                 forall found, findTokenWithChain catalog x = Return found
                               <-> findTokenWithChain catalog y = Return found).
  { intros x y H found. unfold findTokenWithChain.
    destruct catalog as [chains|]; [|split; discriminate].
    rewrite (searchChains_same_case chains x y H).
    destruct (searchChains chains y); [reflexivity | split; discriminate]. }
  split.
  - now apply Hgen.
  - apply Hgen. apply toLowerCase_idempotent.
Qed.

Lemma findTokenWithChain_ignores_case_witness :
  (forall found,
      findTokenWithChain (Some [demoChain]) "0xA0B8" = Return found
      <-> findTokenWithChain (Some [demoChain]) "0xa0b8" = Return found)
  /\ (forall found,
         findTokenWithChain (Some [demoChain]) (toLowerCase "0xA0B8") = Return found
         <-> findTokenWithChain (Some [demoChain]) "0xA0B8" = Return found).
Proof.
  apply (findTokenWithChain_ignores_case (Some [demoChain]) "0xA0B8" "0xa0b8").
  reflexivity.
Defined.

(** ** Typing an amount *)

Lemma skipDigits_prefix_empty (a b : string) :
  skipDigits (a ++ b) = "" -> skipDigits a = "".
Proof.
  induction a as [|c a IH]; cbn [String.append skipDigits]; [reflexivity|].
  destruct (Units.isDigit c); [exact IH | discriminate].
Qed.

Lemma amountPattern_prefix (a b : string) :
  amountPattern (a ++ b) = true -> amountPattern a = true.
Proof.
  unfold amountPattern.
  induction a as [|c a IH]; cbn [String.append skipDigits]; [reflexivity|].
  destruct (Units.isDigit c); [exact IH|].
  intros H. apply andb_true_iff in H as [Hc Hr]. rewrite Hc. cbn [andb].
  apply String.eqb_eq in Hr. apply skipDigits_prefix_empty in Hr. now rewrite Hr.
Qed.

(** X8.  The amount field can be filled in one character at a time: every
    beginning of an accepted amount is accepted too, so the handler stores
    each intermediate text on the way to it. *)
Theorem handleChange_accepts_every_prefix (K : Collaborators)
  (a b : string) (st : State K)
  (Hfull : amountPattern (a ++ b) = true) :
  amountPattern a = true /\ amount (handleChange a st) = a.
Proof.
  pose proof (amountPattern_prefix a b Hfull) as Ha. split; [exact Ha|].
  unfold handleChange. rewrite Ha, orb_true_r. reflexivity.
Qed.

Lemma handleChange_accepts_every_prefix_witness :
  amountPattern "12." = true /\ amount (handleChange "12." (mounted demoK)) = "12.".
Proof.
  apply (handleChange_accepts_every_prefix demoK "12." "5" (mounted demoK)).
  reflexivity.
Defined.

(** ** The modal: settling, closing, launching and confirming *)

Section MoreModalProperties.

Variable K : Collaborators.
Variable props : Props K.

Local Opaque DEBOUNCE_MS.

Ltac modal_fields :=
  cbn [isOpen amount isDebouncing amountRef timerRef prevSimulationRef isFirstRenderRef
       renderedAmount renderedIsOpen hook inflight clock simulateLog
       isLoading currentStep simulation isSimulating multiStepResult toasts
       consoleErrors renderScheduled
       armedAmount armedIsOpen deadline live fst snd].

Lemma startsCycle_empty (prev : option string) : startsCycle prev "" = false.
Proof. reflexivity. Qed.

(** X9.  Between two events no render is pending and the refs agree with
    the state: after any sequence of events [amountRef.current] is the
    amount shown and the effects have settled. *)
Theorem modal_settles_after_every_event (events : list Event) :
  Quiet (run props events (mounted K)).
Proof. apply run_quiet, mounted_quiet. Qed.

Lemma setAmount_same (st : State K) :
  renderScheduled (hook st) = false -> setAmount (amount st) st = st.
Proof.
  intros H. destruct st as [? a ? ? ? ? ? ? ? h ? ? ?]. destruct h.
  unfold setAmount, askRender. modal_fields. cbn in H. subst.
  now rewrite String.eqb_refl.
Qed.

(** X10.  Input the handler rejects, and input equal to the amount already
    shown, change nothing at all: no render happens and a pending timer
    keeps its deadline. *)
Theorem ignored_input_changes_nothing (st : State K) (v : string)
  (Hquiet : Quiet st)
  (Hignored : amountPattern v = false \/ v = amount st) :
  step props (Change v) st = st.
Proof.
  pose proof Hquiet as (Hs & _). cbn [step]. rewrite handleChange_spec.
  destruct Hignored as [Hrej | ->].
  - rewrite Hrej. now apply settle_unscheduled.
  - rewrite (setAmount_same st Hs).
    destruct (amountPattern (amount st)); now apply settle_unscheduled.
Qed.

(** *** Closing *)

Lemma settle_closing (st : State K) :
  isOpen st = false -> amount st = "" -> renderedIsOpen st = true ->
  isFirstRenderRef st = false -> renderScheduled (hook st) = true ->
  settle st
  = mkState false "" false
      (if renderedAmount st =? "" then amountRef st else "")
      None None false "" false
      (renderDone (hook st)) (inflight st) (clock st) (simulateLog st).
Proof.
  intros Ho Ha Hro Hf Hs. unfold settle. cbn [settleWithin]. rewrite Hs.
  rewrite runEffects_nf. cbv zeta. rewrite Ho, Ha, Hro, Hf, startsCycle_empty.
  cbn [negb andb orb Bool.eqb]. modal_fields.
  unfold askRender, renderDone. modal_fields. cbn [orb andb].
  destruct (isDebouncing st); [|reflexivity].
  rewrite runEffects_nf. cbv zeta. modal_fields. rewrite startsCycle_empty.
  cbn [negb andb orb Bool.eqb]. rewrite String.eqb_refl. reflexivity.
Qed.

Lemma close_settles (st : State K) :
  isFirstRenderRef st = false -> amountRef st = amount st ->
  renderedAmount st = amount st -> renderedIsOpen st = isOpen st ->
  isOpen st = true ->
  settle (handleClose st)
  = mkState false "" false "" None None false "" false
      (renderDone (hook st)) (inflight st) (clock st) (simulateLog st).
Proof.
  intros Hf Hr Hra Hro Hopen.
  assert (Hc : handleClose st
               = setTimerRef None (setAmount "" (setIsOpen false st))).
  { unfold handleClose. cbv zeta.
    destruct (timerRef (setAmount "" (setIsOpen false st))) eqn:E; [reflexivity|].
    unfold setTimerRef. unfold setAmount, setIsOpen in *. modal_fields. cbn in E.
    now rewrite E. }
  rewrite Hc, settle_closing.
  - unfold setTimerRef, setAmount, setIsOpen, askRender, renderDone. modal_fields.
    rewrite Hra, Hr. destruct (amount st =? "") eqn:E; [|reflexivity].
    apply String.eqb_eq in E. now rewrite E.
  - reflexivity.
  - reflexivity.
  - unfold setTimerRef, setAmount, setIsOpen. modal_fields. congruence.
  - exact Hf.
  - unfold setTimerRef, setAmount, setIsOpen, askRender. modal_fields.
    rewrite Hopen. cbn [Bool.eqb negb orb]. now rewrite orb_true_r.
Qed.

Lemma step_close_open (st : State K) :
  Quiet st -> isOpen st = true ->
  step props Close st
  = mkState false "" false "" None None false "" false
      (renderDone (hook st)) (inflight st) (clock st) (simulateLog st).
Proof.
  intros (Hs & Hf & Hr & Hra & Hro) Hopen. cbn [step]. now apply close_settles.
Qed.

Lemma elapse_without_timer (st : State K) (dt : nat) :
  timerRef st = None -> step props (Elapse dt) st = setClock (clock st + dt) st.
Proof. intros H. cbn [step]. unfold setClock. modal_fields. now rewrite H. Qed.

(** X11.  Closing an open modal cancels the debounce: whatever time passes
    after the close, no simulation is launched; the amount is emptied and
    the timer handle, the marker and the debounce flag are reset.  The
    hook's state (summary, multi-step result, flags) is not touched. *)
Theorem close_cancels_debounce (st : State K) (waits : list nat)
  (Hquiet : Quiet st) (Hopen : isOpen st = true) :
  ClosedClean (run props (Close :: map Elapse waits) st)
  /\ simulateLog (run props (Close :: map Elapse waits) st) = simulateLog st
  /\ simulation (hook (run props (Close :: map Elapse waits) st)) = simulation (hook st)
  /\ multiStepResult (hook (run props (Close :: map Elapse waits) st))
     = multiStepResult (hook st).
Proof.
  rewrite run_cons, (step_close_open st Hquiet Hopen).
  set (closed := mkState _ _ _ _ _ _ _ _ _ _ _ _ _).
  assert (Hgen : forall ws (s : State K),
             ClosedClean s ->
             ClosedClean (run props (map Elapse ws) s)
             /\ simulateLog (run props (map Elapse ws) s) = simulateLog s
             /\ hook (run props (map Elapse ws) s) = hook s).
  { induction ws as [|w ws IH]; intros s Hc;
      [split; [exact Hc | split; reflexivity]|].
    cbn [map]. rewrite run_cons.
    pose proof Hc as (C1 & C2 & C3 & C4 & C5).
    rewrite (elapse_without_timer s w C3).
    destruct (IH (setClock (clock s + w) s)) as (I1 & I2 & I3).
    - unfold ClosedClean, setClock. modal_fields. now repeat split.
    - split; [exact I1 | split; [exact I2 | exact I3]]. }
  destruct (Hgen waits closed) as (G1 & G2 & G3).
  - subst closed. unfold ClosedClean. modal_fields. now repeat split.
  - rewrite G3, G2. split; [exact G1|]. subst closed. modal_fields.
    unfold renderDone. modal_fields. now repeat split.
Qed.

Lemma handleCloseLater_nf (st : State K) :
  handleCloseLater st
  = mkState false "" false (amountRef st) (option_map cancelled (timerRef st)) None
      (isFirstRenderRef st) (renderedAmount st) (renderedIsOpen st)
      (askRender (negb (Bool.eqb (isDebouncing st) false))
         (askRender (negb (amount st =? ""))
            (askRender (negb (Bool.eqb (isOpen st) false)) (hook st))))
      (inflight st) (clock st) (simulateLog st).
Proof.
  unfold handleCloseLater. cbv zeta.
  unfold setIsOpen. unfold setAmount. modal_fields.
  unfold setIsDebouncing. modal_fields.
  unfold clearTimer. unfold setTimerRef. modal_fields.
  unfold setPrevSimulationRef. modal_fields. reflexivity.
Qed.

(** X12.  Followed by the effects, the close handler of the second variant
    of the modal leaves an open modal exactly as the close handler of the
    first does: what the later handler resets by hand (the debounce flag and
    the marker) the effect on [isOpen] resets anyway, and the timer handle
    it leaves behind is dropped by that effect.  (The effects of the two
    variants differ only in the window of the timer, which a close does
    not arm.) *)
Theorem close_handlers_agree (st : State K)
  (Hquiet : Quiet st) (Hopen : isOpen st = true) :
  settle (handleCloseLater st) = step props Close st.
Proof.
  rewrite (step_close_open st Hquiet Hopen), handleCloseLater_nf.
  destruct Hquiet as (Hs & Hf & Hr & Hra & Hro).
  rewrite settle_closing.
  - modal_fields. unfold askRender, renderDone. modal_fields.
    rewrite Hra, Hr. destruct (amount st =? "") eqn:E; [|reflexivity].
    apply String.eqb_eq in E. now rewrite E.
  - reflexivity.
  - reflexivity.
  - modal_fields. congruence.
  - exact Hf.
  - modal_fields. unfold askRender. modal_fields.
    rewrite Hopen. cbn [Bool.eqb negb orb]. now rewrite !orb_true_r.
Qed.

(** *** What the summary survives *)

Lemma simulateDeposit_begin_keeps (r : Render K) (h : Store K) :
  simulation (fst (simulateDeposit_begin r h)) = simulation h
  /\ multiStepResult (fst (simulateDeposit_begin r h)) = multiStepResult h.
Proof.
  unfold simulateDeposit_begin. destruct (notReady r); [split; reflexivity|].
  cbv zeta. destruct (prepareSimulation r); split; reflexivity.
Qed.

Lemma simulateDeposit_resume_keeps_or_sets (p : PendingSimulation)
  (answer : Outcome Engine.BridgeAndExecuteSimulationResult) (h : Store K) :
  simulation (fst (simulateDeposit_resume p answer h)) = simulation h
  \/ exists s, simulation (fst (simulateDeposit_resume p answer h)) = Some s.
Proof.
  unfold simulateDeposit_resume. destruct answer as [reply|e]; [|now left].
  destruct (CHAIN_METADATA K _) as [native|e]; [|now left].
  destruct (Engine.executeSimulation reply) as [es|]; [|now left].
  destruct (summarize K p reply native es) as [summary|e].
  - right. now exists summary.
  - left. now destruct (Engine.bridgeSimulation reply).
Qed.

Lemma timerCallback_nf (a : string) (o : bool) (st : State K) :
  timerCallback props a o st
  = if o && (amountRef st =? a) then
      mkState (isOpen st) (amount st) false (amountRef st) (timerRef st) (Some a)
        (isFirstRenderRef st) (renderedAmount st) (renderedIsOpen st)
        (askRender (negb (Bool.eqb (isDebouncing st) false))
           (fst (simulateDeposit_begin (renderOf props a) (hook st))))
        (match snd (simulateDeposit_begin (renderOf props a) (hook st)) with
         | inr pending => (inflight st ++ [pending])%list
         | inl _ => inflight st
         end)
        (clock st) (simulateLog st ++ [(clock st, a)])%list
    else st.
Proof.
  unfold timerCallback. destruct (o && _); [|reflexivity]. cbv zeta.
  unfold logSimulate. modal_fields.
  set (started := simulateDeposit_begin (renderOf props a) (hook st)).
  unfold withHook. modal_fields.
  destruct (snd started); [|unfold setInflight; modal_fields];
    unfold setPrevSimulationRef; modal_fields;
    unfold setIsDebouncing; modal_fields; reflexivity.
Qed.

Lemma timerCallback_keeps_summary (a : string) (o : bool) (st : State K) :
  simulation (hook (timerCallback props a o st)) = simulation (hook st).
Proof.
  rewrite timerCallback_nf. destruct (o && _); [|reflexivity]. modal_fields.
  unfold askRender. modal_fields.
  apply (simulateDeposit_begin_keeps (renderOf props a) (hook st)).
Qed.

Lemma step_keeps_or_sets_summary (e : Event) (st : State K) :
  (simulation (hook (step props e st)) = simulation (hook st)
   \/ exists s, simulation (hook (step props e st)) = Some s)
  /\ ((forall i answer, e <> Deliver i answer) ->
      simulation (hook (step props e st)) = simulation (hook st)).
Proof.
  destruct e as [| |v| | |dt|i answer]; cbn [step].
  - rewrite settle_simulation. split; [left|intros _]; reflexivity.
  - rewrite settle_simulation. unfold handleClose. cbv zeta.
    destruct (timerRef _); split; try left; try intros _; reflexivity.
  - rewrite settle_simulation, handleChange_spec.
    destruct (amountPattern v); split; try left; try intros _; reflexivity.
  - rewrite settle_simulation. split; [left|intros _]; reflexivity.
  - rewrite settle_simulation. split; [left|intros _]; reflexivity.
  - unfold setClock. modal_fields.
    destruct (timerRef st) as [t|]; [|split; [left|intros _]; reflexivity].
    destruct (live t && _); [|split; [left|intros _]; reflexivity].
    rewrite settle_simulation, timerCallback_keeps_summary.
    split; [left|intros _]; reflexivity.
  - split; [|intros H; exfalso; now apply (H i answer)].
    destruct (nth_error (inflight st) i) as [p|]; [|now left].
    rewrite settle_simulation. unfold withHook, setInflight. modal_fields.
    apply simulateDeposit_resume_keeps_or_sets.
Qed.

(** X13.  Nothing ever clears the stored summary: every event other than an
    engine answer leaves it as it is (closing the modal included), and an
    engine answer either leaves it or replaces it.  So once a summary is
    there, one stays there through any sequence of events. *)
Theorem summary_is_never_cleared (st : State K) :
  (forall e,
      (forall i answer, e <> Deliver i answer) ->
      simulation (hook (step props e st)) = simulation (hook st))
  /\ (forall events s,
         simulation (hook st) = Some s ->
         exists s', simulation (hook (run props events st)) = Some s').
Proof.
  split.
  - intros e. apply step_keeps_or_sets_summary.
  - intros events. revert st.
    induction events as [|e events IH]; intros st s Hs; [now exists s|].
    rewrite run_cons.
    destruct (proj1 (step_keeps_or_sets_summary e st)) as [Hsame | [s' Hs']].
    + apply (IH _ s). now rewrite Hsame.
    + now apply (IH _ s').
Qed.

(** *** What a timer fires for *)

Lemma runEffects_fresh (st : State K) : TimerFresh (runEffects st).
Proof.
  rewrite runEffects_nf. cbv zeta. unfold TimerFresh. modal_fields. intros t.
  destruct (negb (Bool.eqb (renderedIsOpen st) (isOpen st)) && negb (isOpen st));
    [discriminate|].
  destruct (negb (isFirstRenderRef st) && startsCycle _ _).
  - intros [= <-] _. now split.
  - destruct (timerRef st) as [t0|]; [|discriminate].
    intros [= <-]. discriminate.
Qed.

Lemma settleWithin_fresh (n : nat) (st : State K) :
  TimerFresh st -> TimerFresh (settleWithin n st).
Proof.
  revert st. induction n as [|n IH]; intros st H; cbn [settleWithin]; [assumption|].
  destruct (renderScheduled (hook st)); [|assumption].
  apply IH, runEffects_fresh.
Qed.

Lemma settle_fresh (st : State K) :
  (renderScheduled (hook st) = false -> TimerFresh st) -> TimerFresh (settle st).
Proof.
  intros H. unfold settle. cbn [settleWithin].
  destruct (renderScheduled (hook st)); [|now apply H].
  apply (settleWithin_fresh 2), runEffects_fresh.
Qed.

Lemma fresh_same (st st' : State K) :
  TimerFresh st -> timerRef st' = timerRef st -> amount st' = amount st ->
  isOpen st' = isOpen st -> TimerFresh st'.
Proof. intros H Ht Ha Ho t. rewrite Ht, Ha, Ho. apply H. Qed.

Lemma step_fresh (e : Event) (st : State K) :
  Quiet st -> TimerFresh st -> TimerFresh (step props e st).
Proof.
  intros (Hs & _) Hfresh.
  assert (Hset : forall v, renderScheduled (hook (setAmount v st)) = false ->
                           TimerFresh (setAmount v st)).
  { intros v H. unfold setAmount, askRender in H. modal_fields. cbn in H.
    rewrite Hs in H. cbn [orb] in H. apply negb_false_iff, String.eqb_eq in H.
    apply (fresh_same st); [assumption | reflexivity | now cbn | reflexivity]. }
  destruct e as [| |v| | |dt|i answer]; cbn [step].
  - apply settle_fresh. unfold handleOpen, setAmount, setIsOpen, askRender.
    modal_fields. rewrite Hs. cbn [orb]. intros H.
    apply orb_false_iff in H as [H1 H2].
    apply negb_false_iff in H1. apply Bool.eqb_prop in H1. apply negb_false_iff, String.eqb_eq in H2.
    apply (fresh_same st); [assumption | reflexivity | |]; modal_fields. all: congruence.
  - apply settle_fresh. intros _. unfold handleClose. cbv zeta.
    destruct (timerRef (setAmount "" (setIsOpen false st))) as [t0|] eqn:E.
    + intros t. unfold setTimerRef. modal_fields. discriminate.
    + intros t. rewrite E. discriminate.
  - apply settle_fresh. rewrite handleChange_spec.
    destruct (amountPattern v); [apply Hset | intros _; assumption].
  - apply settle_fresh. apply Hset.
  - apply settle_fresh. unfold withHook, askRender. modal_fields.
    rewrite orb_true_r. discriminate.
  - unfold setClock. modal_fields.
    destruct (timerRef st) as [t|] eqn:Et; [|intros t'; discriminate].
    destruct (live t && _);
      [|apply (fresh_same st); [assumption | now rewrite Et | |]; reflexivity].
    apply settle_fresh. intros _. rewrite timerCallback_nf.
    unfold clearTimer, setTimerRef. modal_fields. cbn [option_map].
    destruct (armedIsOpen t && _); intros t' [= <-]; discriminate.
  - destruct (nth_error (inflight st) i); [|assumption].
    apply settle_fresh. intros _.
    apply (fresh_same st); [assumption | | |]; reflexivity.
Qed.

Lemma run_fresh (events : list Event) (st : State K) :
  Quiet st -> TimerFresh st ->
  Quiet (run props events st) /\ TimerFresh (run props events st).
Proof.
  revert st. induction events as [|e events IH]; intros st Hq Hf; [now split|].
  rewrite run_cons. apply IH; [now apply step_quiet | now apply step_fresh].
Qed.

Lemma settle_log (st : State K) : simulateLog (settle st) = simulateLog st.
Proof.
  destruct (settleWithin_frame K 3 st) as (_ & _ & _ & _ & H & _). exact H.
Qed.

(** X14.  A simulation is only ever launched for the amount on screen, in an
    open modal: whatever happened before, a span of time either launches
    nothing or makes one call to [simulateDeposit], for the amount shown at
    that moment. *)
Theorem launches_only_for_amount_shown (events : list Event) (dt : nat) :
  simulateLog (step props (Elapse dt) (run props events (mounted K)))
  = simulateLog (run props events (mounted K))
  \/ (isOpen (run props events (mounted K)) = true
      /\ simulateLog (step props (Elapse dt) (run props events (mounted K)))
         = (simulateLog (run props events (mounted K))
            ++ [(clock (run props events (mounted K)) + dt,
                 amount (run props events (mounted K)))])%list).
Proof.
  destruct (run_fresh events (mounted K)) as [Hq Hf].
  - apply mounted_quiet.
  - intros t. cbn. discriminate.
  - set (st := run props events (mounted K)) in *.
    cbn [step]. unfold setClock. modal_fields.
    destruct (timerRef st) as [t|] eqn:Et; [|now left].
    destruct (live t) eqn:El; [|now left]. cbn [andb].
    destruct (deadline t <=? clock st + dt)%nat; [|now left].
    destruct (Hf t Et El) as [Ha Ho].
    rewrite settle_log, timerCallback_nf. unfold clearTimer, setTimerRef.
    modal_fields. destruct (armedIsOpen t) eqn:Eo; cbn [andb]; [|now left].
    destruct (amountRef st =? armedAmount t); [|now left].
    right. split; [congruence|]. modal_fields. now rewrite Ha.
Qed.

(** *** What is never simulated *)

Lemma startsCycle_amount (prev : option string) (a : string) :
  startsCycle prev a = true -> a <> "" /\ a <> "0".
Proof.
  unfold startsCycle, truthy. intros H.
  apply andb_true_iff in H as [H _]. apply andb_true_iff in H as [H1 H2].
  apply negb_true_iff in H1, H2. split; now apply String.eqb_neq.
Qed.

Lemma nothing_same (st st' : State K) :
  NeverForNothing st -> timerRef st' = timerRef st ->
  simulateLog st' = simulateLog st -> NeverForNothing st'.
Proof. intros [H1 H2] Ht Hl. split; [rewrite Ht | rewrite Hl]; assumption. Qed.

Lemma runEffects_nothing (st : State K) :
  NeverForNothing st -> NeverForNothing (runEffects st).
Proof.
  intros [Ht Hl]. rewrite runEffects_nf. cbv zeta. split; modal_fields; [|exact Hl].
  intros t.
  destruct (negb (Bool.eqb (renderedIsOpen st) (isOpen st)) && negb (isOpen st));
    [discriminate|].
  destruct (negb (isFirstRenderRef st) && startsCycle _ _) eqn:E.
  - intros [= <-]. modal_fields. apply andb_true_iff in E as [_ E].
    now apply (startsCycle_amount (prevSimulationRef st)).
  - destruct (timerRef st) as [t0|]; [|discriminate].
    intros [= <-]. now apply (Ht t0).
Qed.

Lemma settle_nothing (st : State K) :
  NeverForNothing st -> NeverForNothing (settle st).
Proof.
  unfold settle. generalize 3. intros n. revert st.
  induction n as [|n IH]; intros st H; cbn [settleWithin]; [assumption|].
  destruct (renderScheduled (hook st)); [|assumption].
  now apply IH, runEffects_nothing.
Qed.

Lemma step_nothing (e : Event) (st : State K) :
  NeverForNothing st -> NeverForNothing (step props e st).
Proof.
  intros Hn.
  destruct e as [| |v| | |dt|i answer]; cbn [step].
  - apply settle_nothing, (nothing_same st); [assumption | |]; reflexivity.
  - apply settle_nothing. unfold handleClose. cbv zeta.
    destruct (timerRef (setAmount "" (setIsOpen false st))) as [t0|].
    + split; [intros t; discriminate | apply Hn].
    + apply (nothing_same st); [assumption | |]; reflexivity.
  - apply settle_nothing. rewrite handleChange_spec.
    destruct (amountPattern v); [|assumption].
    apply (nothing_same st); [assumption | |]; reflexivity.
  - apply settle_nothing, (nothing_same st); [assumption | |]; reflexivity.
  - apply settle_nothing, (nothing_same st); [assumption | |]; reflexivity.
  - unfold setClock. modal_fields.
    destruct (timerRef st) as [t|] eqn:Et;
      [|apply (nothing_same st); [assumption | now rewrite Et | reflexivity]].
    destruct (live t && _);
      [|apply (nothing_same st); [assumption | now rewrite Et | reflexivity]].
    apply settle_nothing. rewrite timerCallback_nf.
    unfold clearTimer, setTimerRef. modal_fields. cbn [option_map].
    destruct Hn as [Ht Hl]. specialize (Ht t Et).
    destruct (armedIsOpen t && _).
    + split; modal_fields; [intros t' [= <-]; exact Ht|].
      apply Forall_app. split; [exact Hl|]. now repeat constructor.
    + split; modal_fields; [intros t' [= <-]; exact Ht | exact Hl].
  - destruct (nth_error (inflight st) i); [|assumption].
    apply settle_nothing, (nothing_same st); [assumption | |]; reflexivity.
Qed.

(** X15.  Whatever the user does and whatever the wallet balance behind the
    MAX button is, [simulateDeposit] is never called for an empty amount nor
    for the amount "0", and no timer is ever armed for one. *)
Theorem never_simulates_nothing (events : list Event) :
  NeverForNothing (run props events (mounted K)).
Proof.
  assert (H : forall st : State K,
             NeverForNothing st -> NeverForNothing (run props events st)).
  { induction events as [|e events IH]; intros st Hn; [assumption|].
    rewrite run_cons. now apply IH, step_nothing. }
  apply H. split; [intros t; discriminate | constructor].
Qed.

(** *** Confirming a deposit *)

Lemma settleWithin_isLoading (n : nat) (st : State K) :
  isLoading (hook (settleWithin n st)) = isLoading (hook st).
Proof.
  revert st. induction n as [|n IH]; intros st; cbn [settleWithin]; [reflexivity|].
  destruct (renderScheduled (hook st)); [|reflexivity].
  rewrite IH, runEffects_nf. cbv zeta. modal_fields.
  unfold askRender, renderDone. modal_fields. reflexivity.
Qed.

Lemma executeDeposit_resume_unloads (p : PendingExecution)
  (answer : Outcome Engine.BridgeAndExecuteResult) (h : Store K) :
  isLoading (fst (executeDeposit_resume p answer h)) = false.
Proof.
  unfold executeDeposit_resume. destruct answer as [result|e]; [|reflexivity].
  destruct (truthy_opt (Engine.executeTransactionHash result)); reflexivity.
Qed.

Lemma executeDeposit_resume_same (p : PendingExecution)
  (answer : Outcome Engine.BridgeAndExecuteResult) (h h' : Store K) :
  toasts h = toasts h' ->
  snd (executeDeposit_resume p answer h) = snd (executeDeposit_resume p answer h')
  /\ toasts (fst (executeDeposit_resume p answer h))
     = toasts (fst (executeDeposit_resume p answer h')).
Proof.
  intros H. unfold executeDeposit_resume. destruct answer as [result|e].
  - destruct (truthy_opt (Engine.executeTransactionHash result));
      cbn; now rewrite H.
  - cbn. now rewrite H.
Qed.

Lemma handleClose_hook (st : State K) :
  toasts (hook (handleClose st)) = toasts (hook st)
  /\ isLoading (hook (handleClose st)) = isLoading (hook st).
Proof.
  unfold handleClose. cbv zeta.
  destruct (timerRef (setAmount "" (setIsOpen false st))); split; reflexivity.
Qed.

(** X16.  When [executeDeposit] ends after the engine's answer, the modal
    closes exactly when the outcome is a success: then it ends closed, with
    an empty amount and no timer, marker or debounce flag; after a failure
    it stays open with the amount that was entered.  Either way the loading
    flag is down and no simulation has been launched. *)
Theorem confirm_closes_on_success_only (st : State K) (pending : PendingExecution)
  (answer : Outcome Engine.BridgeAndExecuteResult)
  (Hquiet : Quiet st) (Hopen : isOpen st = true) :
  (success (snd (confirmAnswered pending answer st)) = true ->
   ClosedClean (fst (confirmAnswered pending answer st)))
  /\ (success (snd (confirmAnswered pending answer st)) = false ->
      isOpen (fst (confirmAnswered pending answer st)) = true
      /\ amount (fst (confirmAnswered pending answer st)) = amount st)
  /\ isLoading (hook (fst (confirmAnswered pending answer st))) = false
  /\ simulateLog (fst (confirmAnswered pending answer st)) = simulateLog st.
Proof.
  destruct Hquiet as (Hs & Hf & Hr & Hra & Hro).
  unfold confirmAnswered. cbv zeta. modal_fields.
  pose proof (executeDeposit_resume_unloads pending answer (hook st)) as Hload.
  set (ended := executeDeposit_resume pending answer (hook st)) in *.
  unfold afterExecute. destruct (success (snd ended)).
  - rewrite close_settles; try assumption.
    + split; [intros _; unfold ClosedClean; modal_fields; now repeat split|].
      split; [discriminate|]. modal_fields. unfold renderDone, withHook.
      modal_fields. now split.
  - split; [discriminate|].
    destruct (settleWithin_frame K 3 (withHook (fun _ => fst ended) st))
      as (Ha & Ho & _ & _ & Hl & _).
    unfold settle. rewrite Ha, Ho, Hl, settleWithin_isLoading.
    split; [intros _; now split | now split].
Qed.

(** X17.  The confirm button runs [executeDeposit] of the current render and
    nothing else that shows: pressed and, where the engine was called,
    answered, it gives the outcome of [executeDeposit] and leaves the toasts
    of [executeDeposit]; the renders and the closing of the modal in between
    add none. *)
Theorem confirm_runs_executeDeposit (st : State K)
  (engine : Engine.BridgeAndExecuteParams -> Outcome Engine.BridgeAndExecuteResult) :
  match snd (confirmClicked props st) with
  | inl result =>
      result = snd (executeDeposit (renderOf props (amount st)) engine (hook st))
      /\ toasts (hook (fst (confirmClicked props st)))
         = toasts (fst (executeDeposit (renderOf props (amount st)) engine (hook st)))
  | inr pending =>
      snd (confirmAnswered pending (engine (x_params pending))
             (fst (confirmClicked props st)))
      = snd (executeDeposit (renderOf props (amount st)) engine (hook st))
      /\ toasts (hook (fst (confirmAnswered pending (engine (x_params pending))
                              (fst (confirmClicked props st)))))
         = toasts (fst (executeDeposit (renderOf props (amount st)) engine (hook st)))
  end.
Proof.
  assert (Htoasts : forall X : State K, toasts (hook (settle X)) = toasts (hook X)).
  { intros X. destruct (settleWithin_frame K 3 X) as (_ & _ & _ & _ & _ & _ & _ & H).
    exact H. }
  assert (Hafter : forall res (X : State K),
             toasts (hook (afterExecute res X)) = toasts (hook X)).
  { intros res X. unfold afterExecute.
    destruct (success res); [apply handleClose_hook | reflexivity]. }
  unfold confirmClicked, executeDeposit. cbv zeta.
  destruct (executeDeposit_begin (renderOf props (amount st)) (hook st))
    as [h1 [result|pending]]; modal_fields.
  - split; [reflexivity|]. now rewrite Htoasts, Hafter.
  - unfold confirmAnswered. cbv zeta. modal_fields.
    rewrite Htoasts, Hafter. unfold withHook at 1 3. modal_fields.
    apply executeDeposit_resume_same. now rewrite Htoasts.
Qed.

End MoreModalProperties.

Local Transparent DEBOUNCE_MS.

Lemma ignored_input_changes_nothing_witness :
  step demoProps (Change "1.2.3") demoEntered = demoEntered.
Proof.
  apply (ignored_input_changes_nothing demoK demoProps demoEntered "1.2.3").
  - unfold Quiet. vm_compute. repeat split.
  - left. reflexivity.
Defined.

Lemma close_cancels_debounce_witness :
  ClosedClean (run demoProps (Close :: map Elapse [400; 1000]) demoEntered)
  /\ simulateLog (run demoProps (Close :: map Elapse [400; 1000]) demoEntered)
     = simulateLog demoEntered.
Proof.
  refine (let H := close_cancels_debounce demoK demoProps demoEntered [400; 1000] _ _ in
          conj (proj1 H) (proj1 (proj2 H))).
  - unfold Quiet. vm_compute. repeat split.
  - reflexivity.
Defined.

Lemma close_handlers_agree_witness :
  settle (handleCloseLater demoEntered) = step demoProps Close demoEntered.
Proof.
  apply (close_handlers_agree demoK demoProps demoEntered).
  - unfold Quiet. vm_compute. repeat split.
  - reflexivity.
Defined.

Lemma confirm_closes_on_success_only_witness :
  ClosedClean (fst (confirmAnswered demoExecution (Return hashReply) demoEntered))
  /\ isOpen (fst (confirmAnswered demoExecution (Return noHashReply) demoEntered)) = true
  /\ amount (fst (confirmAnswered demoExecution (Return noHashReply) demoEntered))
     = "1.23".
Proof.
  assert (Hq : Quiet demoEntered) by (unfold Quiet; vm_compute; repeat split).
  split.
  - apply (confirm_closes_on_success_only demoK demoEntered demoExecution
             (Return hashReply) Hq eq_refl). reflexivity.
  - apply (confirm_closes_on_success_only demoK demoEntered demoExecution
             (Return noHashReply) Hq eq_refl). reflexivity.
Defined.
